(** * queuectl: job record, SQLite job store, claim protocol and worker

    A shallow embedding of [queuectl/job.py], [queuectl/storage.py],
    [queuectl/worker.py] and the [dlq retry] and [enqueue] commands of
    [queuectl/cli.py], followed by the properties of the queue engine.

    Conventions.
    - Python [int] is [Z]; [str] is [string]; [None]-able values are
      [option].  A value is "truthy" when it is neither [None] nor [""].
    - A naive [datetime] is the number of microseconds since
      0001-01-01T00:00:00 ([datetime.min]); [datetime.max] is [DT_MAX].
    - The Python runtime the code calls into ([datetime.isoformat],
      [datetime.fromisoformat], the readings of [datetime.utcnow()], the
      values of [uuid.uuid4()]) is a parameter, the record [runtime].
    - Methods that mutate [self] return the new object.
    - The [jobs] table is the list of its rows in rowid order. *)

From Stdlib Require Import ZArith List String Ascii Bool Lia DecimalString.
From Stdlib Require Import Permutation Sorted.
Import ListNotations.
Local Open Scope string_scope.
Local Open Scope Z_scope.

(** ** The Python runtime *)

(** What [datetime.fromisoformat] returns: the wall-clock value and the
    UTC offset when the text carried one. *)
Record datetime := { naive : Z; tzinfo : option Z }.

Record runtime := {
  isoformat : Z -> string;
  fromisoformat : string -> option datetime;   (* [None]: ValueError *)
  utc_clock : nat -> Z;                        (* k-th [datetime.utcnow()] *)
  uuid_source : nat -> string;                 (* k-th [str(uuid.uuid4())] *)
  overflow_text : Z -> Z -> string             (* [str] of the OverflowError
                                                  of [now + timedelta(seconds=d)] *)
}.

Definition DT_MAX : Z := 3652059 * 86400 * 1000000 - 1.
Definition MICROS : Z := 1000000.

Inductive exn_class :=
| TimeoutExpired | ValueError | OverflowError | IntegrityError | OtherException.

Record exn := Exn { cls : exn_class; msg : string }.

(** [str(n)] for an [int]. *)
Definition str_int (n : Z) : string := NilZero.string_of_int (Z.to_int n).

(** [bool(s)] for a [str]. *)
Definition nonempty (s : string) : bool :=
  match s with EmptyString => false | String _ _ => true end.

(** [bool(x)] for an optional [str]. *)
Definition truthy (x : option string) : bool :=
  match x with Some s => nonempty s | None => false end.

(** [s.endswith('Z')] *)
Fixpoint endswith_Z (s : string) : bool :=
  match s with
  | EmptyString => false
  | String c EmptyString => Ascii.eqb c "Z"
  | String _ rest => endswith_Z rest
  end.

(** [s[:-1]] *)
Fixpoint drop_last (s : string) : string :=
  match s with
  | EmptyString => EmptyString
  | String _ EmptyString => EmptyString
  | String c rest => String c (drop_last rest)
  end.

(** [if s.endswith('Z'): s = s[:-1] + '+00:00'] *)
Definition utc_offset (s : string) : string :=
  if endswith_Z s then drop_last s ++ "+00:00" else s.

(** [datetime.utcnow().isoformat() + "Z"] for the reading [now]. *)
Definition stamp (rt : runtime) (now : Z) : string := isoformat rt now ++ "Z".

(** ** job.py *)

Inductive JobState := PENDING | PROCESSING | COMPLETED | FAILED | DEAD.

Definition JobState_eqb (a b : JobState) : bool :=
  match a, b with
  | PENDING, PENDING | PROCESSING, PROCESSING | COMPLETED, COMPLETED
  | FAILED, FAILED | DEAD, DEAD => true
  | _, _ => false
  end.

(** [JobState.X.value] *)
Definition value (s : JobState) : string :=
  match s with
  | PENDING => "pending"
  | PROCESSING => "processing"
  | COMPLETED => "completed"
  | FAILED => "failed"
  | DEAD => "dead"
  end.

(** [JobState(text)]; [None] is the ValueError of an unknown value. *)
Definition JobState_of (text : string) : option JobState :=
  if (text =? "pending")%string then Some PENDING
  else if (text =? "processing")%string then Some PROCESSING
  else if (text =? "completed")%string then Some COMPLETED
  else if (text =? "failed")%string then Some FAILED
  else if (text =? "dead")%string then Some DEAD
  else None.

Module Job.

Record t := mk {
  id : string;
  command : string;
  state : JobState;
  attempts : Z;
  max_retries : Z;
  created_at : string;
  updated_at : string;
  error_message : option string;
  next_retry_at : option string;
  locked_by : option string;      (* attribute set by [_row_to_job] *)
  locked_at : option string
}.

(** The nine entries of [to_dict]. *)
Record dict := mk_dict {
  d_id : string;
  d_command : string;
  d_state : string;
  d_attempts : Z;
  d_max_retries : Z;
  d_created_at : string;
  d_updated_at : string;
  d_error_message : option string;
  d_next_retry_at : option string
}.

Definition to_dict (j : t) : dict :=
  mk_dict (id j) (command j) (value (state j)) (attempts j) (max_retries j)
          (created_at j) (updated_at j) (error_message j) (next_retry_at j).

Definition mark_processing (rt : runtime) (now : Z) (j : t) : t :=
  mk (id j) (command j) PROCESSING (attempts j) (max_retries j)
     (created_at j) (stamp rt now) (error_message j) (next_retry_at j)
     (locked_by j) (locked_at j).

Definition mark_completed (rt : runtime) (now : Z) (j : t) : t :=
  mk (id j) (command j) COMPLETED (attempts j) (max_retries j)
     (created_at j) (stamp rt now) None (next_retry_at j)
     (locked_by j) (locked_at j).

Definition mark_failed (rt : runtime) (now : Z)
           (error_message : option string) (j : t) : t :=
  mk (id j) (command j) FAILED (attempts j + 1) (max_retries j)
     (created_at j) (stamp rt now) error_message (next_retry_at j)
     (locked_by j) (locked_at j).

Definition mark_dead (rt : runtime) (now : Z)
           (error_message : option string) (j : t) : t :=
  mk (id j) (command j) DEAD (attempts j) (max_retries j)
     (created_at j) (stamp rt now) error_message (next_retry_at j)
     (locked_by j) (locked_at j).

(** [backoff_base] is accepted and not used, as in the source. *)
Definition should_retry (backoff_base : Z) (j : t) : bool :=
  if JobState_eqb (state j) COMPLETED then false
  else if max_retries j <=? attempts j then false
  else true.

(** [backoff_base ** self.attempts].  The embedding is that of the
    integer power: it follows Python for [0 <= attempts], the range of
    the counter, and only there (with a negative exponent Python returns
    a float or raises ZeroDivisionError); the theorems on the delay and
    on the outcome of a failure assume [0 <= attempts]. *)
Definition calculate_retry_delay (backoff_base : Z) (j : t) : Z :=
  backoff_base ^ attempts j.

(** [datetime.utcnow() + timedelta(seconds=delay)] raises OverflowError
    when the sum leaves [datetime.min .. datetime.max]; the assignment to
    [next_retry_at] then does not happen.  The delay is that of
    [calculate_retry_delay], so this too follows Python for
    [0 <= attempts] only. *)
Definition set_next_retry_time (rt : runtime) (now : Z) (backoff_base : Z)
           (j : t) : exn + t :=
  let delay := calculate_retry_delay backoff_base j in
  let next_retry := now + delay * MICROS in
  if (0 <=? next_retry) && (next_retry <=? DT_MAX) then
    inr (mk (id j) (command j) (state j) (attempts j) (max_retries j)
            (created_at j) (updated_at j) (error_message j)
            (Some (stamp rt next_retry))
            (locked_by j) (locked_at j))
  else inl (Exn OverflowError (overflow_text rt now delay)).

End Job.

(** ** Effects: state, exceptions and a thread that waits forever *)

Inductive outcome (S A : Type) : Type :=
| Val (a : A) (s : S)        (* normal return *)
| Raise (e : exn) (s : S)    (* an exception propagates *)
| Blocks.                    (* the thread waits on a lock nobody releases *)
Arguments Val {S A} a s.
Arguments Raise {S A} e s.
Arguments Blocks {S A}.

Definition M (S A : Type) : Type := S -> outcome S A.

Definition ret {S A} (a : A) : M S A := fun s => Val a s.

Definition bind {S A B} (m : M S A) (k : A -> M S B) : M S B :=
  fun s => match m s with
           | Val a s' => k a s'
           | Raise e s' => Raise e s'
           | Blocks => Blocks
           end.

Definition raise {S A} (e : exn) : M S A := fun s => Raise e s.

(** [try: m  except <handles>: handler]; an exception of the handler
    propagates. *)
Definition try_except {S A} (m : M S A) (handles : exn -> bool)
           (handler : exn -> M S A) : M S A :=
  fun s => match m s with
           | Raise e s' => if handles e then handler e s' else Raise e s'
           | r => r
           end.

(** [try: m  finally: cleanup] *)
Definition try_finally {S A} (m : M S A) (cleanup : M S unit) : M S A :=
  fun s => match m s with
           | Val a s' => match cleanup s' with
                         | Val _ s'' => Val a s''
                         | Raise e s'' => Raise e s''
                         | Blocks => Blocks
                         end
           | Raise e s' => match cleanup s' with
                           | Val _ s'' => Raise e s''
                           | Raise e' s'' => Raise e' s''
                           | Blocks => Blocks
                           end
           | Blocks => Blocks
           end.

Declare Scope py_scope.
Delimit Scope py_scope with py.
Notation "x <- c ;; k" := (bind c (fun x => k))
  (at level 61, c at next level, right associativity) : py_scope.
Notation "c ;; k" := (bind c (fun _ => k))
  (at level 61, right associativity) : py_scope.
Local Open Scope py_scope.

(** ** storage.py *)

Module Row.
(** A row of the [jobs] table. *)
Record t := mk {
  id : string;                       (* TEXT PRIMARY KEY *)
  command : string;                  (* TEXT NOT NULL *)
  state : string;                    (* TEXT NOT NULL *)
  attempts : Z;                      (* INTEGER NOT NULL *)
  max_retries : Z;                   (* INTEGER NOT NULL *)
  created_at : string;               (* TEXT NOT NULL *)
  updated_at : string;               (* TEXT NOT NULL *)
  error_message : option string;
  next_retry_at : option string;
  locked_by : option string;
  locked_at : option string
}.
End Row.

(** One process: the table it shares with the others, its own
    [JobStorage._lock] and how far it read the clock and the uuid source. *)
Record world := World {
  rows : list Row.t;
  lock_held : bool;
  ticks : nat;
  draws : nat
}.

Definition set_rows (rs : list Row.t) (w : world) : world :=
  World rs (lock_held w) (ticks w) (draws w).
Definition set_lock (b : bool) (w : world) : world :=
  World (rows w) b (ticks w) (draws w).

(** [datetime.utcnow()] *)
Definition utcnow (rt : runtime) : M world Z :=
  fun w => Val (utc_clock rt (ticks w))
               (World (rows w) (lock_held w) (S (ticks w)) (draws w)).

(** [str(uuid.uuid4())] *)
Definition uuid4 (rt : runtime) : M world string :=
  fun w => Val (uuid_source rt (draws w))
               (World (rows w) (lock_held w) (ticks w) (S (draws w))).

Definition table : M world (list Row.t) := fun w => Val (rows w) w.

(** [x or default] on optional text. *)
Definition or_else (x : option string) (default : string) : string :=
  match x with
  | Some s => if nonempty s then s else default
  | None => default
  end.

(** [Job.__init__], called with [state] as text. *)
Definition Job_init (rt : runtime) (id : option string) (command : string)
           (state : string) (attempts max_retries : Z)
           (created_at updated_at error_message next_retry_at : option string)
  : M world Job.t :=
  id' <- (if truthy id then ret (or_else id "") else uuid4 rt) ;;
  st <- match JobState_of state with
        | Some s => ret s
        | None => raise (Exn ValueError ("'" ++ state ++ "' is not a valid JobState"))
        end ;;
  now <- utcnow rt ;;
  ret (Job.mk id' command st attempts max_retries
              (or_else created_at (stamp rt now))
              (or_else updated_at (stamp rt now))
              error_message next_retry_at None None).

(** [with self._lock: body].  [threading.Lock] is not reentrant: acquiring
    it while this thread holds it waits forever. *)
Definition with_lock {A} (body : M world A) : M world A :=
  fun w => if lock_held w then Blocks
           else match body (set_lock true w) with
                | Val a w' => Val a (set_lock false w')
                | Raise e w' => Raise e (set_lock false w')
                | Blocks => Blocks
                end.

(** A Python [int] bound to an INTEGER column must fit 64 bits. *)
Definition sqlite_int (n : Z) : bool := (- 2 ^ 63 <=? n) && (n <? 2 ^ 63).

Definition int_too_large : exn :=
  Exn OverflowError "Python int too large to convert to SQLite INTEGER".

(** [SELECT ... WHERE id = ?] then [fetchone()] *)
Definition find_row (job_id : string) (rs : list Row.t) : option Row.t :=
  find (fun r => (Row.id r =? job_id)%string) rs.

(** [UPDATE jobs SET ... WHERE id = ?]: the new table and the number of
    rows changed. *)
Definition sql_update (job_id : string) (f : Row.t -> Row.t)
           (rs : list Row.t) : list Row.t * nat :=
  (map (fun r => if (Row.id r =? job_id)%string then f r else r) rs,
   List.length (filter (fun r => (Row.id r =? job_id)%string) rs)).

(** [ORDER BY ... LIMIT 1]: the first row, in table order, that no other
    row precedes. *)
Definition keep_first (lt : Row.t -> Row.t -> bool) (best : option Row.t)
           (r : Row.t) : option Row.t :=
  match best with
  | None => Some r
  | Some b => if lt r b then Some r else Some b
  end.

Definition first_by (lt : Row.t -> Row.t -> bool) (rs : list Row.t)
  : option Row.t :=
  fold_left (keep_first lt) rs None.

Definition is_null {A} (x : option A) : bool :=
  match x with None => true | Some _ => false end.

(** [_row_to_job] *)
Definition _row_to_job (rt : runtime) (row : Row.t) : M world Job.t :=
  job <- Job_init rt (Some (Row.id row)) (Row.command row) (Row.state row)
                  (Row.attempts row) (Row.max_retries row)
                  (Some (Row.created_at row)) (Some (Row.updated_at row))
                  (Row.error_message row) (Row.next_retry_at row) ;;
  ret (Job.mk (Job.id job) (Job.command job) (Job.state job)
              (Job.attempts job) (Job.max_retries job)
              (Job.created_at job) (Job.updated_at job)
              (Job.error_message job) (Job.next_retry_at job)
              (Row.locked_by row) (Row.locked_at row)).

(** The row [add_job] inserts: nine columns from the job, no lease. *)
Definition inserted (job : Job.t) : Row.t :=
  Row.mk (Job.id job) (Job.command job) (value (Job.state job))
         (Job.attempts job) (Job.max_retries job) (Job.created_at job)
         (Job.updated_at job) (Job.error_message job) (Job.next_retry_at job)
         None None.

Definition add_job (job : Job.t) : M world Job.t :=
  with_lock (fun w =>
    if negb (sqlite_int (Job.attempts job) && sqlite_int (Job.max_retries job))
    then Raise int_too_large w
    else match find_row (Job.id job) (rows w) with
         | Some _ => Raise (Exn IntegrityError "UNIQUE constraint failed: jobs.id") w
         | None => Val tt (set_rows (rows w ++ [inserted job])%list w)
         end) ;;
  ret job.

Definition get_job (rt : runtime) (job_id : string) : M world (option Job.t) :=
  with_lock (
    rs <- table ;;
    match find_row job_id rs with
    | Some row => job <- _row_to_job rt row ;; ret (Some job)
    | None => ret None
    end).

(** The SET clause of [update_job]: every column but [id] and
    [created_at]. *)
Definition updated (job : Job.t) (r : Row.t) : Row.t :=
  Row.mk (Row.id r) (Job.command job) (value (Job.state job))
         (Job.attempts job) (Job.max_retries job)
         (Row.created_at r) (Job.updated_at job)
         (Job.error_message job) (Job.next_retry_at job)
         (Job.locked_by job) (Job.locked_at job).

Definition update_job (job : Job.t) : M world unit :=
  with_lock (fun w =>
    if negb (sqlite_int (Job.attempts job) && sqlite_int (Job.max_retries job))
    then Raise int_too_large w
    else Val tt (set_rows (fst (sql_update (Job.id job) (updated job)
                                           (rows w))) w)).

(** The [300] of [age < 300], in microseconds.  [total_seconds()] divides
    the microseconds of the difference by [10 ** 6] as a float; against
    300 that comparison is the one on the microseconds. *)
Definition LEASE_TIMEOUT : Z := 300 * MICROS.

(** The first statement of [lock_job] and the test on its row: [true] when
    the lock is held and younger than five minutes ([return False]).
    [locked_at.replace(tzinfo=None)] keeps the wall-clock value, [naive]. *)
Definition lock_job_check (rt : runtime) (job_id : string) : M world bool :=
  rs <- table ;;
  match find_row job_id rs with
  | Some row =>
      if truthy (Row.locked_by row) then
        match Row.locked_at row with
        | Some text =>
            if nonempty text then
              match fromisoformat rt (utc_offset text) with
              | Some locked_at =>
                  now <- utcnow rt ;;
                  ret (now - naive locked_at <? LEASE_TIMEOUT)
              | None => ret false          (* ValueError: lock is stale *)
              end
            else ret false
        | None => ret false
        end
      else ret false
  | None => ret false
  end.

(** [SET locked_by = ?, locked_at = ?, state = 'processing'] *)
Definition leased (worker_id now : string) (r : Row.t) : Row.t :=
  Row.mk (Row.id r) (Row.command r) (value PROCESSING)
         (Row.attempts r) (Row.max_retries r) (Row.created_at r)
         (Row.updated_at r) (Row.error_message r) (Row.next_retry_at r)
         (Some worker_id) (Some now).

(** The second statement of [lock_job], its commit and
    [conn.total_changes > 0]. *)
Definition lock_job_write (rt : runtime) (job_id worker_id : string)
  : M world bool :=
  t <- utcnow rt ;;
  let now := stamp rt t in
  fun w =>
    let '(rs, changes) := sql_update job_id (leased worker_id now) (rows w) in
    Val (Nat.ltb 0 changes) (set_rows rs w).

Definition lock_job (rt : runtime) (job_id worker_id : string) : M world bool :=
  with_lock (
    fresh <- lock_job_check rt job_id ;;
    if fresh then ret false else lock_job_write rt job_id worker_id).

(** [SET locked_by = NULL, locked_at = NULL] *)
Definition released (r : Row.t) : Row.t :=
  Row.mk (Row.id r) (Row.command r) (Row.state r)
         (Row.attempts r) (Row.max_retries r) (Row.created_at r)
         (Row.updated_at r) (Row.error_message r) (Row.next_retry_at r)
         None None.

Definition unlock_job (job_id : string) : M world unit :=
  with_lock (fun w =>
    Val tt (set_rows (fst (sql_update job_id released (rows w))) w)).

(** [locked_by IS NULL OR locked_at IS NULL] *)
Definition no_lease (r : Row.t) : bool :=
  is_null (Row.locked_by r) || is_null (Row.locked_at r).

(** The WHERE clause of the first query of [get_next_job]. *)
Definition pending_candidate (r : Row.t) : bool :=
  (Row.state r =? value PENDING)%string && no_lease r.

(** The WHERE clause of its second query. *)
Definition retry_candidate (now : string) (r : Row.t) : bool :=
  (Row.state r =? value FAILED)%string
  && (Row.attempts r <? Row.max_retries r)
  && match Row.next_retry_at r with
     | None => true
     | Some at_ => String.leb at_ now
     end
  && no_lease r.

(** [ORDER BY created_at ASC] *)
Definition created_before (a b : Row.t) : bool :=
  String.ltb (Row.created_at a) (Row.created_at b).

(** [ORDER BY next_retry_at ASC, created_at ASC]; NULL sorts first. *)
Definition retry_before (a b : Row.t) : bool :=
  match Row.next_retry_at a, Row.next_retry_at b with
  | None, None => created_before a b
  | None, Some _ => true
  | Some _, None => false
  | Some x, Some y =>
      String.ltb x y || ((x =? y)%string && created_before a b)
  end.

(** [if row: job = _row_to_job(row); if lock_job(...): return get_job(...)];
    [Some r] is the value returned, [None] falls through. *)
Definition claim_candidate (rt : runtime) (worker_id : string)
           (row : option Row.t) : M world (option (option Job.t)) :=
  match row with
  | Some r =>
      job <- _row_to_job rt r ;;
      locked <- lock_job rt (Job.id job) worker_id ;;
      if locked
      then (found <- get_job rt (Job.id job) ;; ret (Some found))
      else ret None
  | None => ret None
  end.

Definition get_next_job (rt : runtime) (worker_id : string) (backoff_base : Z)
  : M world (option Job.t) :=
  with_lock (
    t <- utcnow rt ;;
    let now := stamp rt t in
    rs <- table ;;
    first <- claim_candidate rt worker_id
               (first_by created_before (filter pending_candidate rs)) ;;
    match first with
    | Some result => ret result
    | None =>
        rs' <- table ;;
        second <- claim_candidate rt worker_id
                    (first_by retry_before (filter (retry_candidate now) rs')) ;;
        match second with
        | Some result => ret result
        | None => ret None
        end
    end).

(** ** worker.py *)

(** What [subprocess.run(..., capture_output=True, text=True)] returns. *)
Record CompletedProcess := {
  returncode : Z;
  stdout : string;
  stderr : string
}.

(** The worker's variables: the store of its process and the [job] object
    it mutates. *)
Definition pstate : Type := world * Job.t.

Definition on_store {A} (m : M world A) : M pstate A :=
  fun s => match m (fst s) with
           | Val a w => Val a (w, snd s)
           | Raise e w => Raise e (w, snd s)
           | Blocks => Blocks
           end.

Definition the_job : M pstate Job.t := fun s => Val (snd s) s.

Definition assign (j : Job.t) : M pstate unit := fun s => Val tt (fst s, j).

(** [subprocess.run(job.command, shell=True, ..., timeout=300)]: the result
    of the command is an input of the model, either an exception or a
    [CompletedProcess]. *)
Definition subprocess_run (result : exn + CompletedProcess)
  : M pstate CompletedProcess :=
  match result with
  | inl e => raise e
  | inr r => ret r
  end.

Definition job_mark_completed (rt : runtime) : M pstate unit :=
  now <- on_store (utcnow rt) ;;
  job <- the_job ;;
  assign (Job.mark_completed rt now job).

Definition job_mark_failed (rt : runtime) (error_message : string)
  : M pstate unit :=
  now <- on_store (utcnow rt) ;;
  job <- the_job ;;
  assign (Job.mark_failed rt now (Some error_message) job).

Definition job_mark_dead (rt : runtime) (error_message : string)
  : M pstate unit :=
  now <- on_store (utcnow rt) ;;
  job <- the_job ;;
  assign (Job.mark_dead rt now (Some error_message) job).

Definition job_set_next_retry_time (rt : runtime) (backoff_base : Z)
  : M pstate unit :=
  now <- on_store (utcnow rt) ;;
  job <- the_job ;;
  match Job.set_next_retry_time rt now backoff_base job with
  | inr job' => assign job'
  | inl e => raise e
  end.

Definition storage_update_job : M pstate unit :=
  job <- the_job ;;
  on_store (update_job job).

(** [f"Exceeded max retries ({job.max_retries})"] *)
Definition exceeded (job : Job.t) : string :=
  "Exceeded max retries (" ++ str_int (Job.max_retries job) ++ ")".

(** The statements [_process_job] runs, in each of its three failure
    paths, from [job.mark_failed(...)] on. *)
Definition record_failure (rt : runtime) (backoff_base : Z)
           (error_msg : string) : M pstate unit :=
  job_mark_failed rt error_msg ;;
  job <- the_job ;;
  if Job.should_retry backoff_base job then
    job_set_next_retry_time rt backoff_base ;;
    storage_update_job
  else
    job_mark_dead rt (exceeded job) ;;
    storage_update_job.

(** [result.stderr or result.stdout or "Command failed"] *)
Definition error_output (r : CompletedProcess) : string :=
  if nonempty (stderr r) then stderr r
  else if nonempty (stdout r) then stdout r
  else "Command failed".

Definition is_timeout (e : exn) : bool :=
  match cls e with TimeoutExpired => true | _ => false end.

(** [Worker._process_job(job, backoff_base)], run on the state [(w, job)].
    The two [except] clauses belong to one [try]: an exception raised by
    a handler is not handled by the other. *)
Definition _process_job (rt : runtime) (result : exn + CompletedProcess)
           (backoff_base : Z) : M pstate unit :=
  try_finally
    (try_except
       (r <- subprocess_run result ;;
        if returncode r =? 0 then
          job_mark_completed rt ;;
          storage_update_job
        else
          record_failure rt backoff_base (substring 0 500 (error_output r)))
       (fun _ => true)
       (fun e =>
          if is_timeout e
          then record_failure rt backoff_base "Job execution timed out"
          else record_failure rt backoff_base ("Execution error: " ++ msg e)))
    (job <- the_job ;; on_store (unlock_job (Job.id job))).

(** ** cli.py: [queuectl dlq retry JOB_ID] *)

(** The exit status of the command and the line it prints. *)
Record cli_exit := { exit_code : Z; echo : string }.

(** [sys.exit(1)] raises [SystemExit], which [except Exception] does not
    catch: the two error exits leave the [try] at once. *)
Definition retry (rt : runtime) (job_id : string) : M world cli_exit :=
  try_except
    (found <- get_job rt job_id ;;
     match found with
     | None =>
         ret {| exit_code := 1;
                echo := "Error: Job " ++ job_id ++ " not found" |}
     | Some job =>
         if negb (JobState_eqb (Job.state job) DEAD) then
           ret {| exit_code := 1;
                  echo := "Error: Job " ++ job_id
                          ++ " is not in Dead Letter Queue" |}
         else
           now <- utcnow rt ;;
           update_job (Job.mk (Job.id job) (Job.command job) PENDING 0
                              (Job.max_retries job) (Job.created_at job)
                              (stamp rt now) None None
                              (Job.locked_by job) (Job.locked_at job)) ;;
           ret {| exit_code := 0;
                  echo := "Job " ++ job_id ++ " moved back to pending queue" |}
     end)
    (fun _ => true)
    (fun e => ret {| exit_code := 1; echo := "Error: " ++ msg e |}).

(** ** Worker processes racing for one job

    Each worker process builds its own [JobStorage]
    ([_worker_process_entry]), hence its own [_lock]; the processes share
    the table.  A process inside [lock_job] holds its own lock, which no
    other process waits for, and runs its two SQL statements one after
    the other; each statement is atomic and statements of other processes
    may run in between. *)

Inductive pc :=
| Ready                    (* about to call [lock_job] *)
| Checked                  (* ran the SELECT, did not return False *)
| Returned (b : bool).     (* [lock_job] returned [b] *)

Record process := {
  worker_id : string;
  at_pc : pc
}.

Record system := {
  db : list Row.t;         (* the shared table *)
  readings : nat;          (* readings of the clock so far *)
  procs : list process
}.

(** One statement of process [p] against the table. *)
Definition step_process (rt : runtime) (job_id : string) (p : process)
           (s : system) : process * system :=
  match at_pc p with
  | Ready =>
      match lock_job_check rt job_id (World (db s) true (readings s) 0) with
      | Val fresh w =>
          ({| worker_id := worker_id p;
              at_pc := if fresh then Returned false else Checked |},
           {| db := rows w; readings := ticks w; procs := procs s |})
      | _ => (p, s)
      end
  | Checked =>
      match lock_job_write rt job_id (worker_id p)
                           (World (db s) true (readings s) 0) with
      | Val b w =>
          ({| worker_id := worker_id p; at_pc := Returned b |},
           {| db := rows w; readings := ticks w; procs := procs s |})
      | _ => (p, s)
      end
  | Returned _ => (p, s)
  end.

Fixpoint replace_nth {A} (n : nat) (x : A) (l : list A) : list A :=
  match l, n with
  | [], _ => []
  | _ :: t, O => x :: t
  | h :: t, S n' => h :: replace_nth n' x t
  end.

(** Process number [i] runs its next statement. *)
Definition step (rt : runtime) (job_id : string) (i : nat) (s : system)
  : system :=
  match nth_error (procs s) i with
  | Some p =>
      let '(p', s') := step_process rt job_id p s in
      {| db := db s'; readings := readings s';
         procs := replace_nth i p' (procs s') |}
  | None => s
  end.

(** A schedule names the process that moves at each instant. *)
Definition run_schedule (rt : runtime) (job_id : string)
           (schedule : list nat) (s : system) : system :=
  fold_left (fun s i => step rt job_id i s) schedule s.

(** The workers whose [lock_job] returned [True]. *)
Definition winners (s : system) : list string :=
  map worker_id
      (filter (fun p => match at_pc p with Returned true => true | _ => false end)
              (procs s)).

(** Workers of one process calling [lock_job] one after the other. *)
Fixpoint lock_in_turn (rt : runtime) (job_id : string) (workers : list string)
  : M world (list bool) :=
  match workers with
  | [] => ret []
  | worker :: rest =>
      b <- lock_job rt job_id worker ;;
      bs <- lock_in_turn rt job_id rest ;;
      ret (b :: bs)
  end.

(** ** A runtime to run the code on

    [Sample.rt] renders and parses, as [datetime] does, the whole seconds
    of the hour that starts at 2024-01-01T00:00:00; its clock advances one
    second per reading.  Texts outside that hour do not parse, and an
    instant outside it is rendered as [datetime.min]: the examples stay
    within the hour. *)

Module Sample.

(** 2024-01-01T00:00:00 in microseconds since [datetime.min]. *)
Definition T0 : Z := 63839664000000000.

Definition two_digits (n : Z) : string :=
  str_int (n / 10) ++ str_int (n mod 10).

(** The text of second [k] of the hour. *)
Definition render (k : Z) : string :=
  "2024-01-01T00:" ++ two_digits (k / 60) ++ ":" ++ two_digits (k mod 60).

Definition render_instant (t : Z) : string :=
  let k := (t - T0) / MICROS in
  if ((t - T0) mod MICROS =? 0) && (0 <=? k) && (k <? 3600)
  then render k
  else "0001-01-01T00:00:00".

(** The second of the hour that [text] denotes, searched downward from
    [fuel]. *)
Fixpoint parse (fuel : nat) (text : string) : option datetime :=
  match fuel with
  | O => None
  | S k =>
      let here := render (Z.of_nat k) in
      if (text =? here)%string
      then Some {| naive := T0 + Z.of_nat k * MICROS; tzinfo := None |}
      else if (text =? here ++ "+00:00")%string
      then Some {| naive := T0 + Z.of_nat k * MICROS; tzinfo := Some 0 |}
      else parse k text
  end.

Definition rt : runtime := {|
  isoformat := render_instant;
  fromisoformat := parse 3600;
  utc_clock := fun k => T0 + Z.of_nat k * MICROS;
  uuid_source := fun _ => "123e4567-e89b-42d3-a456-426614174000";
  overflow_text := fun _ _ => "date value out of range"
|}.

(** The same runtime with its clock set to start [s] seconds into the
    hour. *)
Definition rt_at (s : Z) : runtime := {|
  isoformat := render_instant;
  fromisoformat := parse 3600;
  utc_clock := fun k => T0 + (s + Z.of_nat k) * MICROS;
  uuid_source := uuid_source rt;
  overflow_text := overflow_text rt
|}.

(** A store whose lock is free. *)
Definition store (rs : list Row.t) : world := World rs false 0 0.

(** [Job(id=id, command=command, max_retries=k)] built at T0 and the row
    [add_job] makes of it. *)
Definition new_row (id command : string) (k : Z) : Row.t :=
  Row.mk id command "pending" 0 k
         "2024-01-01T00:00:00Z" "2024-01-01T00:00:00Z" None None None None.

(** The row of a job a worker holds: [processing], with a lease. *)
Definition held_row (id : string) (worker locked_at : string) : Row.t :=
  Row.mk id "true" "processing" 0 3
         "2024-01-01T00:00:00Z" "2024-01-01T00:00:00Z" None None
         (Some worker) (Some locked_at).

(** The row of a failing job worker 100 holds, after [attempts]
    failures out of [k]. *)
Definition failing_row (id : string) (attempts k : Z)
           (next_retry_at : option string) : Row.t :=
  Row.mk id "false" "processing" attempts k
         "2024-01-01T00:00:00Z" "2024-01-01T00:00:00Z" None next_retry_at
         (Some "worker-100-0") (Some "2024-01-01T00:00:00Z").

(** The row of a job in the dead letter queue. *)
Definition dead_row (id : string) : Row.t :=
  Row.mk id "false" "dead" 2 2
         "2024-01-01T00:00:00Z" "2024-01-01T00:00:04Z"
         (Some "Exceeded max retries (2)") (Some "2024-01-01T00:00:03Z")
         None None.

(** The object [get_job] returns for row [r] held by a worker. *)
Definition job_of (r : Row.t) : Job.t :=
  Job.mk (Row.id r) (Row.command r) PROCESSING (Row.attempts r)
         (Row.max_retries r) (Row.created_at r) (Row.updated_at r)
         (Row.error_message r) (Row.next_retry_at r)
         (Row.locked_by r) (Row.locked_at r).

(** [subprocess.run] returned with this exit code and no output. *)
Definition exited (code : Z) : exn + CompletedProcess :=
  inr {| returncode := code; stdout := ""; stderr := "" |}.

(** Two worker processes about to call [lock_job] on the one pending
    job of the table. *)
Definition two_workers : system := {|
  db := [new_row "j1" "true" 3];
  readings := 0;
  procs := [ {| worker_id := "worker-100-0"; at_pc := Ready |};
             {| worker_id := "worker-200-0"; at_pc := Ready |} ]
|}.

End Sample.

(** ** Vocabulary of the statements *)

(** The text [get_next_job] binds to [now] when called in [w]. *)
Definition poll_time (rt : runtime) (w : world) : string :=
  stamp rt (utc_clock rt (ticks w)).

(** A row one of the two queries of [get_next_job] selects. *)
Definition candidate (now : string) (r : Row.t) : bool :=
  pending_candidate r || retry_candidate now r.

(** The command did not exit with code 0: [subprocess.run] raised, or
    returned a non-zero [returncode]. *)
Definition is_failure (result : exn + CompletedProcess) : Prop :=
  match result with
  | inl _ => True
  | inr r => returncode r <> 0
  end.

(** The message [_process_job] passes to [mark_failed] in each of its
    three failure paths. *)
Definition failure_message (result : exn + CompletedProcess) : string :=
  match result with
  | inl e => if is_timeout e then "Job execution timed out"
             else "Execution error: " ++ msg e
  | inr r => substring 0 500 (error_output r)
  end.

(** [now + timedelta(seconds=base ** attempts)] is a [datetime]. *)
Definition retry_time_ok (now base attempts : Z) : Prop :=
  0 <= now + base ^ attempts * MICROS <= DT_MAX.

(** The INTEGER columns of a job fit SQLite. *)
Definition storable (attempts max_retries : Z) : Prop :=
  sqlite_int attempts = true /\ sqlite_int max_retries = true.

(** The job after the failure was recorded, when a retry is scheduled. *)
Definition rescheduled (rt : runtime) (w : world) (base : Z) (text : string)
           (job : Job.t) : Job.t :=
  let failed := Job.mark_failed rt (utc_clock rt (ticks w)) (Some text) job in
  Job.mk (Job.id job) (Job.command job) FAILED (Job.attempts job + 1)
         (Job.max_retries job) (Job.created_at job) (Job.updated_at failed)
         (Some text)
         (Some (stamp rt (utc_clock rt (S (ticks w))
                          + base ^ (Job.attempts job + 1) * MICROS)))
         (Job.locked_by job) (Job.locked_at job).

(** The job after the failure was recorded, when it is dead-lettered. *)
Definition buried (rt : runtime) (w : world) (job : Job.t) : Job.t :=
  Job.mk (Job.id job) (Job.command job) DEAD (Job.attempts job + 1)
         (Job.max_retries job) (Job.created_at job)
         (stamp rt (utc_clock rt (S (ticks w))))
         (Some (exceeded job)) (Job.next_retry_at job)
         (Job.locked_by job) (Job.locked_at job).

(** The row [dlq retry] writes over the dead row [r] at reading [now]. *)
Definition revived (rt : runtime) (now : Z) (r : Row.t) : Row.t :=
  Row.mk (Row.id r) (Row.command r) (value PENDING) 0 (Row.max_retries r)
         (Row.created_at r) (stamp rt now) None None
         (Row.locked_by r) (Row.locked_at r).

(** A lease that [lock_job] cannot date: no [locked_at], an empty one, or
    one [datetime.fromisoformat] rejects. *)
Definition unreadable (rt : runtime) (locked_at : option string) : Prop :=
  match locked_at with
  | None => True
  | Some text => text = "" \/ fromisoformat rt (utc_offset text) = None
  end.

(** ** storage.py: listings and statistics *)

(** [ORDER BY created_at DESC].  SQL leaves the order of rows with equal
    [created_at] open; here they keep the table order. *)
Fixpoint insert_newest_first (r : Row.t) (sorted : list Row.t) : list Row.t :=
  match sorted with
  | [] => [r]
  | h :: t =>
      if String.leb (Row.created_at h) (Row.created_at r)
      then r :: sorted
      else h :: insert_newest_first r t
  end.

Definition newest_first (rs : list Row.t) : list Row.t :=
  fold_right insert_newest_first [] rs.

(** [[self._row_to_job(row) for row in rows]] *)
Fixpoint rows_to_jobs (rt : runtime) (rs : list Row.t) : M world (list Job.t) :=
  match rs with
  | [] => ret []
  | row :: rest =>
      job <- _row_to_job rt row ;;
      jobs <- rows_to_jobs rt rest ;;
      ret (job :: jobs)
  end.

(** [if state:] chooses the query: [None] and [""] both list every job. *)
Definition list_jobs (rt : runtime) (state : option string)
  : M world (list Job.t) :=
  with_lock (
    rs <- table ;;
    rows_to_jobs rt
      (newest_first
         (if truthy state
          then filter (fun r => (Row.state r =? or_else state "")%string) rs
          else rs))).

Definition get_dlq_jobs (rt : runtime) : M world (list Job.t) :=
  list_jobs rt (Some (value DEAD)).

(** [SELECT COUNT( * ) FROM jobs WHERE state = ?] *)
Definition count_state (st : JobState) (rs : list Row.t) : Z :=
  Z.of_nat (List.length
              (filter (fun r => (Row.state r =? value st)%string) rs)).

(** The values of [locked_by] that are not NULL. *)
Definition holders (rs : list Row.t) : list string :=
  flat_map (fun r => match Row.locked_by r with
                     | Some w => [w]
                     | None => []
                     end) rs.

(** [SELECT COUNT(DISTINCT locked_by) FROM jobs WHERE locked_by IS NOT NULL] *)
Definition count_holders (rs : list Row.t) : Z :=
  Z.of_nat (List.length (nodup string_dec (holders rs))).

(** [get_stats]: the dict it builds, in insertion order. *)
Definition get_stats : M world (list (string * Z)) :=
  with_lock (
    rs <- table ;;
    ret (map (fun st => (value st, count_state st rs))
             [PENDING; PROCESSING; COMPLETED; FAILED; DEAD]
         ++ [("active_workers", count_holders rs)])%list).


(** ** job.py: [from_dict] *)

(** The dict [from_dict] reads, with the types of a job: [None] is a
    missing key (for the optional texts, also a null value). *)
Record job_data := {
  k_id : option string;
  k_command : option string;
  k_state : option string;
  k_attempts : option Z;
  k_max_retries : option Z;
  k_created_at : option string;
  k_updated_at : option string;
  k_error_message : option string;
  k_next_retry_at : option string
}.

(** [data.get(key, default)] *)
Definition get_or {A} (x : option A) (default : A) : A :=
  match x with Some v => v | None => default end.

Definition from_dict (rt : runtime) (data : job_data) : M world Job.t :=
  Job_init rt (k_id data) (get_or (k_command data) "")
           (get_or (k_state data) "pending")
           (get_or (k_attempts data) 0) (get_or (k_max_retries data) 3)
           (k_created_at data) (k_updated_at data)
           (k_error_message data) (k_next_retry_at data).


(** ** cli.py: [queuectl enqueue] *)

Definition nl : string := String (ascii_of_nat 10) EmptyString.

(** [max_retries or config.get("max_retries", 3)] *)
Definition retries_or (max_retries : option Z) (configured : Z) : Z :=
  match max_retries with
  | Some n => if n =? 0 then configured else n
  | None => configured
  end.

(** [enqueue(job_data, id, command, max_retries)].  [loads] is
    [json.loads] restricted to objects with the types of a job: [inl text]
    is a JSONDecodeError with that text.  [configured] is
    [config.get("max_retries", 3)]. *)
Definition enqueue (rt : runtime) (loads : string -> string + job_data)
           (configured : Z) (job_data : option string)
           (id command : option string) (max_retries : option Z)
  : M world cli_exit :=
  let store job :=
    add_job job ;;
    ret {| exit_code := 0;
           echo := "Job enqueued: " ++ Job.id job ++ nl
                   ++ "  Command: " ++ Job.command job ++ nl
                   ++ "  Max retries: " ++ str_int (Job.max_retries job) |} in
  try_except
    (if truthy job_data then
       match loads (or_else job_data "") with
       | inl text =>
           ret {| exit_code := 1; echo := "Error: Invalid JSON - " ++ text |}
       | inr data => job <- from_dict rt data ;; store job
       end
     else if negb (truthy command) then
       ret {| exit_code := 1;
              echo := "Error: Either provide job_data JSON or --command option" |}
     else
       job <- Job_init rt id (or_else command "") "pending" 0
                       (retries_or max_retries configured)
                       None None None None ;;
       store job)
    (fun _ => true)
    (fun e => ret {| exit_code := 1; echo := "Error: " ++ msg e |}).

(** ** worker.py: one turn of the loop of [Worker.run] *)

(** The store of the process and [self.current_job]. *)
Definition wstate : Type := world * option Job.t.

(** The [except Exception] clause of the loop: release the current job,
    forget it, sleep. *)
Definition run_handler : M wstate unit :=
  fun s =>
    match snd s with
    | Some job =>
        match unlock_job (Job.id job) (fst s) with
        | Val _ w => Val tt (w, None)
        | Raise e w => Raise e (w, Some job)
        | Blocks => Blocks
        end
    | None => Val tt s
    end.

(** The body of [while self.running:].  [result] is what the command of
    the job does if one is run.  [time.sleep(1)] changes nothing here;
    [KeyboardInterrupt], which is no [Exception], is left out. *)
Definition run_iteration (rt : runtime) (worker_id : string)
           (backoff_base : Z) (result : exn + CompletedProcess)
  : M wstate unit :=
  fun s =>
    match get_next_job rt worker_id backoff_base (fst s) with
    | Val None w => Val tt (w, snd s)
    | Val (Some job) w =>
        match _process_job rt result backoff_base (w, job) with
        | Val _ s' => Val tt (fst s', None)
        | Raise _ s' => run_handler (fst s', Some (snd s'))
        | Blocks => Blocks
        end
    | Raise _ w => run_handler (w, snd s)
    | Blocks => Blocks
    end.

(** ** More vocabulary *)

(** [P] holds of the state an operation ends in, if it ends. *)
Definition after {S A} (o : outcome S A) (P : S -> Prop) : Prop :=
  match o with
  | Val _ s => P s
  | Raise _ s => P s
  | Blocks => True
  end.

(** The operation ends: it returns or raises. *)
Definition ends {S A} (o : outcome S A) : Prop :=
  match o with
  | Blocks => False
  | _ => True
  end.

(** The primary keys of the table, in table order. *)
Definition ids (rs : list Row.t) : list string := map Row.id rs.

(** Every [state] column holds the value of a [JobState]. *)
Definition valid_states (rs : list Row.t) : Prop :=
  Forall (fun r => JobState_of (Row.state r) <> None) rs.

(** A row [_row_to_job] reads back as it is: no empty [id], [created_at]
    or [updated_at], and the state of a [JobState]. *)
Definition readable (r : Row.t) : Prop :=
  Row.id r <> "" /\ Row.created_at r <> "" /\ Row.updated_at r <> "" /\
  JobState_of (Row.state r) <> None.

(** The job that a readable row with state [st] denotes. *)
Definition job_of_row (st : JobState) (r : Row.t) : Job.t :=
  Job.mk (Row.id r) (Row.command r) st (Row.attempts r)
         (Row.max_retries r) (Row.created_at r) (Row.updated_at r)
         (Row.error_message r) (Row.next_retry_at r)
         (Row.locked_by r) (Row.locked_at r).

(** The job [_row_to_job] makes of a readable row. *)
Definition job_view (r : Row.t) : Job.t :=
  job_of_row (get_or (JobState_of (Row.state r)) PENDING) r.

(** The rows [list_jobs] selects. *)
Definition selected (state : option string) (rs : list Row.t) : list Row.t :=
  if truthy state
  then filter (fun r => (Row.state r =? or_else state "")%string) rs
  else rs.

(** A job at least as new as another, by the text of [created_at]. *)
Definition newer (a b : Job.t) : Prop :=
  String.leb (Job.created_at b) (Job.created_at a) = true.

(** The id [Job.__init__] gives a job built in [w]: the one passed, or
    the next uuid when none or an empty one is passed. *)
Definition new_id (rt : runtime) (id : option string) (w : world) : string :=
  if truthy id then or_else id "" else uuid_source rt (draws w).

(** The world after [Job.__init__] returned: one more reading of the
    clock and, when no id was passed, one more uuid. *)
Definition after_init (id : option string) (w : world) : world :=
  World (rows w) (lock_held w) (S (ticks w))
        (if truthy id then draws w else S (draws w)).

(** What every step of [_process_job] keeps of the state [(w, job)] it
    started in: the lock of the store free, the id of the job object, and
    every row of another job. *)
Definition settled (w : world) (job : Job.t) (s : pstate) : Prop :=
  lock_held (fst s) = false /\
  Job.id (snd s) = Job.id job /\
  forall other, other <> Job.id job ->
                find_row other (rows (fst s)) = find_row other (rows w).

(** A step that ends, and ends settled, whenever it starts settled. *)
Definition steady {A} (m : M pstate A) : Prop :=
  forall w job s, settled w job s ->
    match m s with
    | Val _ s' => settled w job s'
    | Raise _ s' => settled w job s'
    | Blocks => False
    end.

(** Newest first. *)
Definition newer_or_equal (a b : Row.t) : Prop :=
  String.leb (Row.created_at b) (Row.created_at a) = true.

(** More rows and jobs to run the code on. *)
Module Sample2.

(** A completed job nobody holds. *)
Definition done_row (id : string) : Row.t :=
  Row.mk id "true" "completed" 0 3
         "2024-01-01T00:00:00Z" "2024-01-01T00:00:02Z" None None None None.

(** [Job(id=id, command=command, max_retries=k)] built at T0. *)
Definition new_job (id command : string) (k : Z) : Job.t :=
  Job.mk id command PENDING 0 k
         "2024-01-01T00:00:00Z" "2024-01-01T00:00:00Z" None None None None.

End Sample2.

(** * Properties *)

(** ** Tables and queries *)

Lemma first_by_acc lt l : forall acc r,
  fold_left (keep_first lt) l acc = r ->
  match r with
  | Some x => acc = Some x \/ In x l
  | None => acc = None /\ l = []
  end.
Proof.
  induction l as [|a l IH]; intros acc r H; simpl in H.
  - subst r. destruct acc; auto.
  - apply IH in H. destruct r as [x|].
    + destruct H as [H|H]; [|right; right; exact H].
      destruct acc as [b|]; simpl in H.
      * destruct (lt a b); inversion H; subst; auto. right; left; reflexivity.
      * inversion H; subst. right; left; reflexivity.
    + destruct H as [H _]. destruct acc as [b|]; simpl in H; [destruct (lt a b)|]; discriminate.
Qed.

Lemma first_by_In lt l r : first_by lt l = Some r -> In r l.
Proof.
  intro H. apply first_by_acc in H. destruct H as [H|H]; [discriminate|exact H].
Qed.

Lemma first_by_None lt l : first_by lt l = None -> l = [].
Proof. intro H. apply first_by_acc in H. apply H. Qed.

Lemma pending_candidate_state r :
  pending_candidate r = true -> Row.state r = "pending".
Proof.
  unfold pending_candidate. intro H. apply andb_true_iff in H.
  destruct H as [H _]. apply String.eqb_eq in H. exact H.
Qed.

Lemma retry_candidate_state now r :
  retry_candidate now r = true -> Row.state r = "failed".
Proof.
  unfold retry_candidate. intro H.
  repeat (apply andb_true_iff in H; destruct H as [H _]).
  apply String.eqb_eq in H. exact H.
Qed.

Lemma lock_job_blocks rt job_id worker w :
  lock_held w = true -> lock_job rt job_id worker w = Blocks.
Proof. intro H. unfold lock_job, with_lock. rewrite H. reflexivity. Qed.

Lemma claim_candidate_blocks rt worker r w :
  lock_held w = true ->
  JobState_of (Row.state r) <> None ->
  claim_candidate rt worker (Some r) w = Blocks.
Proof.
  intros Hl Hs. unfold claim_candidate, _row_to_job, Job_init, bind.
  destruct (truthy (Some (Row.id r))).
  - unfold ret at 1. destruct (JobState_of (Row.state r)) as [st|]; [|congruence].
    unfold ret at 1. unfold utcnow, ret. simpl.
    rewrite lock_job_blocks; [reflexivity|exact Hl].
  - unfold uuid4. destruct (JobState_of (Row.state r)) as [st|]; [|congruence].
    unfold ret at 1. unfold utcnow, ret. simpl.
    rewrite lock_job_blocks; [reflexivity|exact Hl].
Qed.

Lemma first_by_nonempty lt l r :
  In r l -> exists r', first_by lt l = Some r' /\ In r' l.
Proof.
  intro H. destruct (first_by lt l) as [r'|] eqn:E.
  - exists r'. split; [reflexivity|]. apply first_by_In in E. exact E.
  - apply first_by_None in E. subst l. destruct H.
Qed.

Lemma JobState_of_pending : JobState_of "pending" = Some PENDING.
Proof. reflexivity. Qed.
Lemma JobState_of_failed : JobState_of "failed" = Some FAILED.
Proof. reflexivity. Qed.

Lemma get_next_job_blocks rt worker base w r :
  lock_held w = false ->
  In r (rows w) ->
  candidate (poll_time rt w) r = true ->
  get_next_job rt worker base w = Blocks.
Proof.
  intros Hl Hin Hc.
  unfold get_next_job, with_lock. rewrite Hl.
  unfold bind at 1. unfold utcnow at 1. simpl.
  unfold bind at 1. unfold table at 1. simpl.
  unfold bind at 1.
  destruct (first_by created_before (filter pending_candidate (rows w)))
    as [p|] eqn:E1.
  - apply first_by_In in E1. apply filter_In in E1. destruct E1 as [_ E1].
    rewrite claim_candidate_blocks; [reflexivity|reflexivity|].
    rewrite (pending_candidate_state _ E1). discriminate.
  - apply first_by_None in E1.
    unfold claim_candidate at 1. unfold ret at 1.
    unfold bind at 1. unfold table at 1. simpl.
    unfold candidate in Hc. apply orb_true_iff in Hc. destruct Hc as [Hc|Hc].
    + assert (In r (filter pending_candidate (rows w))) as HI
        by (apply filter_In; auto).
      rewrite E1 in HI. destruct HI.
    + assert (In r (filter (retry_candidate (poll_time rt w)) (rows w))) as HI
        by (apply filter_In; auto).
      destruct (first_by_nonempty retry_before _ _ HI) as [q [E2 Hq]].
      unfold poll_time in E2. unfold bind at 1. rewrite E2.
      apply filter_In in Hq. destruct Hq as [_ Hq].
      rewrite claim_candidate_blocks; [reflexivity|reflexivity|].
      rewrite (retry_candidate_state _ _ Hq). discriminate.
Qed.

Lemma filter_none {A} (p : A -> bool) l :
  (forall x, In x l -> p x = false) -> filter p l = [].
Proof.
  induction l as [|a l IH]; intro H; simpl; [reflexivity|].
  rewrite (H a (or_introl eq_refl)). apply IH. intros x Hx. apply H. right. exact Hx.
Qed.

Lemma get_next_job_idle rt worker base w :
  lock_held w = false ->
  (forall r, In r (rows w) -> candidate (poll_time rt w) r = false) ->
  get_next_job rt worker base w =
  Val None (World (rows w) false (S (ticks w)) (draws w)).
Proof.
  intros Hl Hn.
  unfold get_next_job, with_lock. rewrite Hl.
  unfold bind at 1. unfold utcnow at 1. simpl.
  unfold bind at 1. unfold table at 1. simpl.
  rewrite (filter_none pending_candidate).
  2:{ intros x Hx. specialize (Hn x Hx). unfold candidate in Hn.
      apply orb_false_iff in Hn. apply Hn. }
  unfold bind at 1. simpl. unfold bind at 1. unfold table at 1. simpl.
  rewrite (filter_none (retry_candidate _)).
  2:{ intros x Hx. specialize (Hn x Hx). unfold candidate in Hn.
      apply orb_false_iff in Hn. apply Hn. }
  reflexivity.
Qed.

Section SqlUpdate.
Variable job_id : string.
Variable f : Row.t -> Row.t.
Hypothesis f_id : forall r, Row.id (f r) = Row.id r.

Lemma sql_update_find rs r :
  find_row job_id rs = Some r ->
  find_row job_id (fst (sql_update job_id f rs)) = Some (f r).
Proof.
  unfold find_row, sql_update. simpl.
  induction rs as [|a rs IH]; simpl; intro H; [discriminate|].
  destruct (Row.id a =? job_id)%string eqn:E.
  - inversion H; subst a. simpl. rewrite f_id, E. reflexivity.
  - simpl. rewrite E. apply IH. exact H.
Qed.

Lemma sql_update_miss rs :
  find_row job_id rs = None ->
  sql_update job_id f rs = (rs, 0%nat).
Proof.
  unfold find_row, sql_update.
  induction rs as [|a rs IH]; simpl; intro H; [reflexivity|].
  destruct (Row.id a =? job_id)%string eqn:E; [discriminate|].
  specialize (IH H). injection IH as H1 H2.
  rewrite H1, H2. reflexivity.
Qed.

Lemma sql_update_other other rs :
  other <> job_id ->
  find_row other (fst (sql_update job_id f rs)) = find_row other rs.
Proof.
  intro Hne. unfold find_row, sql_update. simpl.
  induction rs as [|a rs IH]; simpl; [reflexivity|].
  destruct (Row.id a =? job_id)%string eqn:E.
  - rewrite f_id. apply String.eqb_eq in E.
    destruct (Row.id a =? other)%string eqn:E2.
    + apply String.eqb_eq in E2. congruence.
    + exact IH.
  - destruct (Row.id a =? other)%string; [reflexivity|exact IH].
Qed.

Lemma sql_update_changes rs r :
  find_row job_id rs = Some r ->
  Nat.ltb 0 (snd (sql_update job_id f rs)) = true.
Proof.
  unfold find_row, sql_update. simpl.
  induction rs as [|a rs IH]; simpl; intro H; [discriminate|].
  destruct (Row.id a =? job_id)%string eqn:E; [reflexivity|].
  apply IH. exact H.
Qed.

Lemma sql_update_length rs :
  List.length (fst (sql_update job_id f rs)) = List.length rs.
Proof. unfold sql_update. simpl. apply length_map. Qed.
End SqlUpdate.

Lemma lock_job_write_hit rt job_id worker w r :
  find_row job_id (rows w) = Some r ->
  exists w',
    lock_job_write rt job_id worker w = Val true w' /\
    lock_held w' = lock_held w /\ ticks w' = S (ticks w) /\
    find_row job_id (rows w') =
      Some (leased worker (stamp rt (utc_clock rt (ticks w))) r).
Proof.
  intro H. unfold lock_job_write, bind, utcnow. cbn [rows].
  pose proof (sql_update_changes job_id
                (leased worker (stamp rt (utc_clock rt (ticks w))))
                (rows w) r H) as Hn.
  pose proof (sql_update_find job_id
                (leased worker (stamp rt (utc_clock rt (ticks w))))
                (fun _ => eq_refl) (rows w) r H) as Hf.
  destruct (sql_update job_id
              (leased worker (stamp rt (utc_clock rt (ticks w)))) (rows w))
    as [rs n].
  cbn [fst snd] in Hn, Hf. rewrite Hn.
  eexists. split; [reflexivity|]. cbn. auto.
Qed.

Lemma lock_job_check_unreadable rt job_id w r :
  find_row job_id (rows w) = Some r ->
  unreadable rt (Row.locked_at r) ->
  lock_job_check rt job_id w = Val false w.
Proof.
  intros H U. unfold lock_job_check, bind, table. rewrite H.
  destruct (truthy (Row.locked_by r)); [|reflexivity].
  unfold unreadable in U. destruct (Row.locked_at r) as [text|]; [|reflexivity].
  destruct U as [U|U].
  - subst text. reflexivity.
  - destruct (nonempty text); [|reflexivity]. rewrite U. reflexivity.
Qed.

Lemma lock_job_grants rt job_id worker w r :
  lock_held w = false ->
  find_row job_id (rows w) = Some r ->
  lock_job_check rt job_id (set_lock true w) = Val false (set_lock true w) ->
  exists w',
    lock_job rt job_id worker w = Val true w' /\
    lock_held w' = false /\
    find_row job_id (rows w') =
      Some (leased worker (stamp rt (utc_clock rt (ticks w))) r).
Proof.
  intros Hl H Hc. unfold lock_job, with_lock. rewrite Hl.
  unfold bind at 1. rewrite Hc.
  destruct (lock_job_write_hit rt job_id worker (set_lock true w) r H)
    as [w' [E [_ [_ F]]]].
  rewrite E. exists (set_lock false w'). repeat split. exact F.
Qed.

(** ** The claim protocol: [lock_job] *)

Lemma lock_job_check_shape rt job_id w :
  exists fresh k,
    lock_job_check rt job_id w =
    Val fresh (World (rows w) (lock_held w) k (draws w)) /\
    (k = ticks w \/ k = S (ticks w)).
Proof.
  unfold lock_job_check, bind, table.
  assert (Hw : w = World (rows w) (lock_held w) (ticks w) (draws w))
    by (destruct w; reflexivity).
  destruct (find_row job_id (rows w)) as [r|];
    [|exists false, (ticks w); rewrite <- Hw; auto].
  destruct (truthy (Row.locked_by r));
    [|exists false, (ticks w); rewrite <- Hw; auto].
  destruct (Row.locked_at r) as [text|];
    [|exists false, (ticks w); rewrite <- Hw; auto].
  destruct (nonempty text);
    [|exists false, (ticks w); rewrite <- Hw; auto].
  destruct (fromisoformat rt (utc_offset text)) as [d|];
    [|exists false, (ticks w); rewrite <- Hw; auto].
  unfold utcnow, ret. eexists _, (S (ticks w)). split; [reflexivity|auto].
Qed.

Lemma lock_job_grants_after rt job_id worker w r k :
  lock_held w = false ->
  find_row job_id (rows w) = Some r ->
  lock_job_check rt job_id (set_lock true w) =
    Val false (World (rows w) true k (draws w)) ->
  exists w',
    lock_job rt job_id worker w = Val true w' /\
    lock_held w' = false /\ ticks w' = S k /\
    find_row job_id (rows w') =
      Some (leased worker (stamp rt (utc_clock rt k)) r).
Proof.
  intros Hl H Hc. unfold lock_job, with_lock. rewrite Hl.
  unfold bind at 1. rewrite Hc.
  destruct (lock_job_write_hit rt job_id worker
              (World (rows w) true k (draws w)) r H) as [w' [E [_ [T F]]]].
  rewrite E. exists (set_lock false w'). repeat split; assumption.
Qed.

(** A lease younger than five minutes makes [lock_job] return [False]
    and change no row. *)
Lemma lock_job_fresh_lease_refused rt job_id worker w r text d :
  lock_held w = false ->
  find_row job_id (rows w) = Some r ->
  truthy (Row.locked_by r) = true ->
  Row.locked_at r = Some text ->
  text <> "" ->
  fromisoformat rt (utc_offset text) = Some d ->
  utc_clock rt (ticks w) - naive d < LEASE_TIMEOUT ->
  lock_job rt job_id worker w =
  Val false (World (rows w) false (S (ticks w)) (draws w)).
Proof.
  intros Hl H Hb Ha Hne Hp Hage.
  unfold lock_job, with_lock. rewrite Hl.
  unfold bind at 1. unfold lock_job_check, bind, table. cbn [rows set_lock].
  rewrite H, Hb, Ha.
  destruct text as [|c text]; [congruence|]. cbn [nonempty]. rewrite Hp.
  unfold utcnow, ret, set_lock. cbn [ticks rows lock_held draws].
  apply Z.ltb_lt in Hage. rewrite Hage. reflexivity.
Qed.

(** A lease of five minutes or more is overwritten. *)
Lemma lock_job_stale_lease_granted rt job_id worker w r text d :
  lock_held w = false ->
  find_row job_id (rows w) = Some r ->
  Row.locked_at r = Some text ->
  fromisoformat rt (utc_offset text) = Some d ->
  LEASE_TIMEOUT <= utc_clock rt (ticks w) - naive d ->
  exists w',
    lock_job rt job_id worker w = Val true w' /\
    lock_held w' = false /\
    (exists k, find_row job_id (rows w') =
               Some (leased worker (stamp rt (utc_clock rt k)) r)).
Proof.
  intros Hl H Ha Hp Hage.
  destruct (lock_job_check_shape rt job_id (set_lock true w))
    as [fresh [k [E _]]].
  assert (fresh = false) as ->.
  { revert E. unfold lock_job_check, bind, table. cbn [rows set_lock].
    rewrite H. destruct (truthy (Row.locked_by r)); [|intro E; inversion E; auto].
    rewrite Ha. destruct (nonempty text); [|intro E; inversion E; auto].
    rewrite Hp. unfold utcnow, ret, set_lock. cbn [ticks rows lock_held draws].
    intro E. inversion E. apply Z.ltb_ge. exact Hage. }
  cbn in E.
  destruct (lock_job_grants_after rt job_id worker w r k Hl H E)
    as [w' [E' [L [_ F]]]].
  exists w'. repeat split; try assumption. exists k. exact F.
Qed.

(** C10. For every job whose row has a non-null [locked_by] and a
    [locked_at] that is null, empty or rejected by
    [datetime.fromisoformat], [lock_job] neither refuses nor raises: it
    returns [True], and the row of the job then has the requesting worker
    in [locked_by], the current time (the clock reading of the call, as
    [isoformat() + "Z"]) in [locked_at] and the state [processing]; its
    eight other columns are as they were. *)
Theorem lock_job_unreadable_lease_granted rt job_id worker holder w r :
  lock_held w = false ->
  find_row job_id (rows w) = Some r ->
  Row.locked_by r = Some holder ->
  unreadable rt (Row.locked_at r) ->
  exists w' r',
    lock_job rt job_id worker w = Val true w' /\
    find_row job_id (rows w') = Some r' /\
    Row.locked_by r' = Some worker /\
    Row.locked_at r' = Some (isoformat rt (utc_clock rt (ticks w)) ++ "Z") /\
    Row.state r' = "processing" /\
    (Row.id r', Row.command r', Row.attempts r', Row.max_retries r',
     Row.created_at r', Row.updated_at r', Row.error_message r',
     Row.next_retry_at r')
    = (Row.id r, Row.command r, Row.attempts r, Row.max_retries r,
       Row.created_at r, Row.updated_at r, Row.error_message r,
       Row.next_retry_at r).
Proof.
  intros Hl H _ U.
  pose proof (lock_job_check_unreadable rt job_id (set_lock true w) r H U) as E.
  destruct (lock_job_grants_after rt job_id worker w r (ticks w) Hl H)
    as [w' [E' [_ [_ F]]]].
  - rewrite E. reflexivity.
  - exists w', (leased worker (poll_time rt w) r).
    split; [exact E'|]. split; [exact F|].
    repeat split; reflexivity.
Qed.

Lemma lock_job_unreadable_lease_granted_witness :
  exists w' r',
    lock_job Sample.rt "j1" "worker-200-0"
      (Sample.store [Sample.held_row "j1" "worker-100-0" "five minutes ago"])
    = Val true w' /\
    find_row "j1" (rows w') = Some r' /\
    Row.locked_by r' = Some "worker-200-0" /\
    Row.locked_at r' = Some "2024-01-01T00:00:00Z" /\
    Row.state r' = "processing" /\
    (Row.id r', Row.command r', Row.attempts r', Row.max_retries r',
     Row.created_at r', Row.updated_at r', Row.error_message r',
     Row.next_retry_at r')
    = ("j1", Row.command (Sample.held_row "j1" "worker-100-0" "five minutes ago"),
       0, 3,
       Row.created_at (Sample.held_row "j1" "worker-100-0" "five minutes ago"),
       Row.updated_at (Sample.held_row "j1" "worker-100-0" "five minutes ago"),
       None, None).
Proof.
  apply (lock_job_unreadable_lease_granted Sample.rt "j1" "worker-200-0"
           "worker-100-0"
           (Sample.store
              [Sample.held_row "j1" "worker-100-0" "five minutes ago"])
           (Sample.held_row "j1" "worker-100-0" "five minutes ago")).
  - reflexivity.
  - reflexivity.
  - reflexivity.
  - right. vm_compute. reflexivity.
Defined.

Lemma endswith_Z_stamp s : endswith_Z (s ++ "Z") = true.
Proof.
  induction s as [|c s IH]; [reflexivity|].
  simpl. destruct (s ++ "Z") eqn:E; [destruct s; discriminate|exact IH].
Qed.

Lemma drop_last_stamp s : drop_last (s ++ "Z") = s.
Proof.
  induction s as [|c s IH]; [reflexivity|].
  simpl. destruct (s ++ "Z") eqn:E; [destruct s; discriminate|].
  rewrite IH. reflexivity.
Qed.

Lemma utc_offset_stamp rt t :
  utc_offset (stamp rt t) = isoformat rt t ++ "+00:00".
Proof.
  unfold utc_offset, stamp. rewrite endswith_Z_stamp, drop_last_stamp.
  reflexivity.
Qed.

Lemma stamp_nonempty rt t : stamp rt t <> "".
Proof. unfold stamp. destruct (isoformat rt t); discriminate. Qed.

(** What a successful [lock_job] leaves behind. *)
Lemma lock_job_true_inv rt job_id worker w w1 :
  lock_job rt job_id worker w = Val true w1 ->
  lock_held w = false /\ lock_held w1 = false /\
  exists r k,
    find_row job_id (rows w) = Some r /\
    ticks w1 = S k /\
    find_row job_id (rows w1) =
      Some (leased worker (stamp rt (utc_clock rt k)) r).
Proof.
  unfold lock_job, with_lock. destruct (lock_held w) eqn:Hl; [discriminate|].
  unfold bind at 1.
  destruct (lock_job_check_shape rt job_id (set_lock true w))
    as [fresh [k [E _]]].
  rewrite E. unfold set_lock in *. cbn [rows lock_held ticks draws] in *.
  destruct fresh; [unfold ret; intro H; discriminate|].
  destruct (find_row job_id (rows w)) as [r|] eqn:F.
  - destruct (lock_job_write_hit rt job_id worker
                (World (rows w) true k (draws w)) r F) as [w' [E' [_ [T G]]]].
    rewrite E'. intro H. inversion H; subst w1. cbn.
    repeat split. exists r, k. auto.
  - unfold lock_job_write, bind, utcnow. cbn [rows lock_held ticks draws].
    rewrite sql_update_miss by exact F. cbn. intro H. discriminate.
Qed.

(** Within one process, where [_lock] serialises the calls: once a worker
    holds the lease, every later [lock_job] on the job is refused as long
    as the clock stays within five minutes of the lease. *)
Lemma lock_in_turn_refused rt job_id workers : forall w r holder t d,
  lock_held w = false ->
  find_row job_id (rows w) = Some r ->
  Row.locked_by r = Some holder -> holder <> "" ->
  Row.locked_at r = Some (stamp rt t) ->
  fromisoformat rt (isoformat rt t ++ "+00:00") = Some d ->
  (forall k, (ticks w <= k)%nat -> utc_clock rt k - naive d < LEASE_TIMEOUT) ->
  lock_in_turn rt job_id workers w =
  Val (repeat false (List.length workers))
      (World (rows w) false (List.length workers + ticks w) (draws w)).
Proof.
  induction workers as [|a rest IH]; intros w r holder t d Hl F Hb Hne Ha Hp Hc.
  - cbn. unfold ret. destruct w; cbn in *. subst. reflexivity.
  - cbn [lock_in_turn]. unfold bind at 1.
    rewrite (lock_job_fresh_lease_refused rt job_id a w r (stamp rt t) d);
      try assumption.
    + unfold bind at 1.
      rewrite (IH _ r holder t d); cbn [rows lock_held ticks draws];
        try assumption; try reflexivity.
      * unfold ret. cbn [List.length repeat]. rewrite Nat.add_succ_r. reflexivity.
      * intros k Hk. apply Hc. lia.
    + rewrite Hb. destruct holder; [congruence|reflexivity].
    + apply stamp_nonempty.
    + rewrite utc_offset_stamp. exact Hp.
    + apply Hc. lia.
Qed.

(** A worker that obtains the lease keeps the others of its process out
    for five minutes. *)
Lemma lock_job_excludes_in_turn rt job_id worker others w w1 d k :
  lock_job rt job_id worker w = Val true w1 ->
  worker <> "" ->
  ticks w1 = S k ->
  fromisoformat rt (isoformat rt (utc_clock rt k) ++ "+00:00") = Some d ->
  (forall n, (ticks w1 <= n)%nat -> utc_clock rt n - naive d < LEASE_TIMEOUT) ->
  exists w2,
    lock_in_turn rt job_id others w1 =
    Val (repeat false (List.length others)) w2 /\ rows w2 = rows w1.
Proof.
  intros H Hne Hk Hp Hc.
  destruct (lock_job_true_inv _ _ _ _ _ H) as [_ [Hl1 [r [k' [F [T G]]]]]].
  assert (k' = k) as -> by congruence.
  eexists. split.
  - eapply lock_in_turn_refused with (holder := worker) (t := utc_clock rt k);
      try eassumption; reflexivity.
  - reflexivity.
Qed.

(** Run alone, the two statements of a process are [lock_job]. *)
Lemma lock_job_in_two_steps rt job_id p tbl n :
  at_pc p = Ready ->
  exists b w',
    lock_job rt job_id (worker_id p) (World tbl false n 0) = Val b w' /\
    run_schedule rt job_id [0; 0]%nat
                 {| db := tbl; readings := n; procs := [p] |} =
    {| db := rows w'; readings := ticks w';
       procs := [ {| worker_id := worker_id p; at_pc := Returned b |} ] |}.
Proof.
  intro Hp. unfold lock_job, with_lock. cbn [lock_held].
  change (set_lock true (World tbl false n 0)) with (World tbl true n 0).
  unfold bind at 1.
  destruct (lock_job_check_shape rt job_id (World tbl true n 0))
    as [fresh [k [E _]]]. cbn [rows lock_held ticks draws] in E.
  unfold run_schedule. cbn [fold_left]. unfold step at 2.
  cbn [procs nth_error]. unfold step_process at 1. rewrite Hp.
  cbn [db readings]. rewrite E.
  destruct fresh.
  - exists false. eexists. unfold ret. split; [reflexivity|]. reflexivity.
  - cbn [db readings procs replace_nth rows ticks].
    unfold step. cbn [procs nth_error]. unfold step_process.
    cbn [at_pc worker_id db readings].
    unfold lock_job_write, bind, utcnow. cbn [rows lock_held ticks draws].
    destruct (sql_update job_id _ tbl) as [rs c].
    eexists _, _. split; reflexivity.
Qed.

Lemma lock_job_check_no_lease rt job_id w r :
  find_row job_id (rows w) = Some r ->
  truthy (Row.locked_by r) = false ->
  lock_job_check rt job_id w = Val false w.
Proof.
  intros F T. unfold lock_job_check, bind, table. rewrite F, T. reflexivity.
Qed.

(** Whatever the runtime and the table: when two processes both run the
    SELECT of [lock_job] on a job nobody holds before either runs its
    UPDATE, both calls return [True]. *)
Lemma race_both_win rt job_id a b tbl n r :
  find_row job_id tbl = Some r ->
  truthy (Row.locked_by r) = false ->
  winners (run_schedule rt job_id [0; 1; 0; 1]%nat
             {| db := tbl; readings := n;
                procs := [ {| worker_id := a; at_pc := Ready |};
                           {| worker_id := b; at_pc := Ready |} ] |})
  = [a; b].
Proof.
  intros F T. unfold run_schedule. cbn [fold_left].
  unfold step at 4. cbn [procs nth_error]. unfold step_process.
  cbn [at_pc db readings worker_id].
  rewrite (lock_job_check_no_lease rt job_id (World tbl true n 0) r F T).
  cbn [rows ticks procs replace_nth db readings].
  unfold step at 3. cbn [procs nth_error]. unfold step_process.
  cbn [at_pc db readings worker_id].
  rewrite (lock_job_check_no_lease rt job_id (World tbl true n 0) r F T).
  cbn [rows ticks procs replace_nth db readings].
  unfold step at 2. cbn [procs nth_error]. unfold step_process.
  cbn [at_pc db readings worker_id].
  destruct (lock_job_write_hit rt job_id a (World tbl true n 0) r F)
    as [w1 [E1 [_ [_ F1]]]].
  rewrite E1. cbn [rows ticks procs replace_nth db readings].
  unfold step. cbn [procs nth_error]. unfold step_process.
  cbn [at_pc db readings worker_id].
  destruct (lock_job_write_hit rt job_id b
              (World (rows w1) true (ticks w1) 0) _ F1) as [w2 [E2 _]].
  rewrite E2. reflexivity.
Qed.

(** [get_next_job] never brings back a job: either no row is a candidate
    and it answers [None] without touching the table, or a row is one and
    the call never returns. *)
Lemma get_next_job_never_claims rt worker base w :
  lock_held w = false ->
  get_next_job rt worker base w = Blocks \/
  get_next_job rt worker base w =
  Val None (World (rows w) false (S (ticks w)) (draws w)).
Proof.
  intro Hl.
  destruct (existsb (candidate (poll_time rt w)) (rows w)) eqn:E.
  - left. apply existsb_exists in E. destruct E as [r [Hin Hc]].
    eapply get_next_job_blocks; eassumption.
  - right. apply get_next_job_idle; [exact Hl|].
    intros r Hin. destruct (candidate (poll_time rt w) r) eqn:C; [|reflexivity].
    assert (existsb (candidate (poll_time rt w)) (rows w) = true)
      by (apply existsb_exists; exists r; auto).
    congruence.
Qed.

(** A row that carries both lease columns is in neither query of
    [get_next_job], however old the lease. *)
Lemma held_row_not_candidate now r worker text :
  Row.locked_by r = Some worker ->
  Row.locked_at r = Some text ->
  candidate now r = false.
Proof.
  intros Hb Ha. unfold candidate, pending_candidate, retry_candidate, no_lease.
  rewrite Hb, Ha. cbn [is_null orb]. rewrite !andb_false_r. reflexivity.
Qed.

(** C1. Does not hold of the code. Two worker processes call [lock_job]
    on the one pending job of the table; each runs its SELECT, sees no
    lease, then each runs its UPDATE, which carries no condition on the
    lease: both calls return [True]. *)
Theorem two_workers_lock_one_job :
  winners (run_schedule Sample.rt "j1" [0; 1; 0; 1]%nat Sample.two_workers)
  = ["worker-100-0"; "worker-200-0"].
Proof.
  apply (race_both_win Sample.rt "j1" "worker-100-0" "worker-200-0"
           [Sample.new_row "j1" "true" 3] 0 (Sample.new_row "j1" "true" 3));
    reflexivity.
Qed.

(** C2. Does not hold of the code. With one pending job in the table,
    [get_next_job] selects it and calls [lock_job] while it still holds
    [_lock]; [lock_job] waits for that lock and the call never returns. *)
Theorem get_next_job_waits_forever :
  get_next_job Sample.rt "worker-100-0" 2
               (Sample.store [Sample.new_row "j1" "true" 3]) = Blocks.
Proof.
  apply (get_next_job_blocks Sample.rt "worker-100-0" 2 _
           (Sample.new_row "j1" "true" 3)).
  - reflexivity.
  - left. reflexivity.
  - reflexivity.
Qed.

(** C3. Does not hold of the code. Worker 100 took the lease on job j1
    at 00:00:00 and died; at 00:05:01 worker 200 polls. [lock_job] called
    at that instant overwrites the lease, but [get_next_job] does not call
    it: the row is in neither query, and the answer is [None] with the
    table unchanged. *)
Theorem stale_lease_not_reclaimed :
  get_next_job (Sample.rt_at 301) "worker-200-0" 2
    (Sample.store [Sample.held_row "j1" "worker-100-0" "2024-01-01T00:00:00Z"])
  = Val None
        (World [Sample.held_row "j1" "worker-100-0" "2024-01-01T00:00:00Z"]
               false 1 0)
  /\ exists w',
       lock_job (Sample.rt_at 301) "j1" "worker-200-0"
         (Sample.store
            [Sample.held_row "j1" "worker-100-0" "2024-01-01T00:00:00Z"])
       = Val true w'.
Proof.
  split.
  - apply get_next_job_idle; [reflexivity|].
    intros r [<-|[]]. reflexivity.
  - eexists. vm_compute. reflexivity.
Qed.

(** ** The worker: [_process_job] *)

(** The row of the job after [update_job] then [unlock_job], from the row
    [F] finds before them. *)
Ltac persisted F :=
  apply sql_update_find; [reflexivity|];
  apply sql_update_find; [reflexivity|exact F].

Lemma update_job_ok job w :
  lock_held w = false ->
  storable (Job.attempts job) (Job.max_retries job) ->
  update_job job w =
  Val tt (World (fst (sql_update (Job.id job) (updated job) (rows w)))
                false (ticks w) (draws w)).
Proof.
  intros Hl [Ha Hm]. unfold update_job, with_lock. rewrite Hl.
  cbn [set_lock rows lock_held ticks draws]. rewrite Ha, Hm. reflexivity.
Qed.

Lemma unlock_job_ok job_id w :
  lock_held w = false ->
  unlock_job job_id w =
  Val tt (World (fst (sql_update job_id released (rows w)))
                false (ticks w) (draws w)).
Proof.
  intros Hl. unfold unlock_job, with_lock. rewrite Hl. reflexivity.
Qed.

Lemma record_failure_retry rt base text w job :
  lock_held w = false ->
  storable (Job.attempts job + 1) (Job.max_retries job) ->
  Job.attempts job + 1 < Job.max_retries job ->
  retry_time_ok (utc_clock rt (S (ticks w))) base (Job.attempts job + 1) ->
  record_failure rt base text (w, job) =
  Val tt (World (fst (sql_update (Job.id job)
                        (updated (rescheduled rt w base text job)) (rows w)))
                false (S (S (ticks w))) (draws w),
          rescheduled rt w base text job).
Proof.
  intros Hl Hs Hlt Hr.
  unfold record_failure, job_mark_failed, job_set_next_retry_time,
    storage_update_job, the_job, assign, on_store, bind, utcnow.
  cbn [fst snd rows lock_held ticks draws].
  unfold Job.should_retry. cbn [Job.mark_failed Job.state Job.attempts
    Job.max_retries JobState_eqb].
  destruct (Job.max_retries job <=? Job.attempts job + 1) eqn:E;
    [apply Z.leb_le in E; lia|].
  cbn [fst snd rows lock_held ticks draws].
  unfold Job.set_next_retry_time, Job.calculate_retry_delay.
  cbn [Job.mark_failed Job.state Job.attempts Job.max_retries Job.id
       Job.command Job.created_at Job.updated_at Job.error_message
       Job.next_retry_at Job.locked_by Job.locked_at].
  destruct Hr as [Hr1 Hr2].
  apply Z.leb_le in Hr1, Hr2. rewrite Hr1, Hr2. cbn [andb fst snd].
  rewrite update_job_ok; [reflexivity|exact Hl|exact Hs].
Qed.

Lemma record_failure_dead rt base text w job :
  lock_held w = false ->
  storable (Job.attempts job + 1) (Job.max_retries job) ->
  Job.max_retries job <= Job.attempts job + 1 ->
  record_failure rt base text (w, job) =
  Val tt (World (fst (sql_update (Job.id job)
                        (updated (buried rt w job)) (rows w)))
                false (S (S (ticks w))) (draws w),
          buried rt w job).
Proof.
  intros Hl Hs Hge.
  unfold record_failure, job_mark_failed, job_mark_dead,
    storage_update_job, the_job, assign, on_store, bind, utcnow.
  cbn [fst snd rows lock_held ticks draws].
  unfold Job.should_retry. cbn [Job.mark_failed Job.state Job.attempts
    Job.max_retries JobState_eqb].
  apply Z.leb_le in Hge. rewrite Hge.
  cbn [fst snd rows lock_held ticks draws].
  unfold exceeded, Job.mark_dead.
  cbn [Job.mark_failed Job.state Job.attempts Job.max_retries Job.id
       Job.command Job.created_at Job.updated_at Job.error_message
       Job.next_retry_at Job.locked_by Job.locked_at].
  rewrite update_job_ok; [reflexivity|exact Hl|exact Hs].
Qed.

Lemma process_job_failure rt result base w job w1 j1 :
  is_failure result ->
  record_failure rt base (failure_message result) (w, job) = Val tt (w1, j1) ->
  lock_held w1 = false ->
  _process_job rt result base (w, job) =
  Val tt (World (fst (sql_update (Job.id j1) released (rows w1)))
                false (ticks w1) (draws w1), j1).
Proof.
  intros Hf Hr Hl. unfold _process_job, try_finally, try_except.
  destruct result as [e|cp]; cbn [failure_message is_failure] in *.
  - unfold bind at 1. cbn [subprocess_run]. unfold raise at 1.
    destruct (is_timeout e); rewrite Hr;
      unfold bind, the_job, on_store; cbn [fst snd];
      rewrite unlock_job_ok by exact Hl; reflexivity.
  - unfold bind at 1. cbn [subprocess_run]. unfold ret at 1.
    apply Z.eqb_neq in Hf. rewrite Hf. rewrite Hr.
    unfold bind, the_job, on_store; cbn [fst snd].
    rewrite unlock_job_ok by exact Hl. reflexivity.
Qed.

Lemma process_job_success rt cp base w job :
  returncode cp = 0 ->
  lock_held w = false ->
  storable (Job.attempts job) (Job.max_retries job) ->
  _process_job rt (inr cp) base (w, job) =
  Val tt
      (World
         (fst (sql_update (Job.id job) released
            (fst (sql_update (Job.id job)
               (updated (Job.mark_completed rt (utc_clock rt (ticks w)) job))
               (rows w)))))
         false (S (ticks w)) (draws w),
       Job.mark_completed rt (utc_clock rt (ticks w)) job).
Proof.
  intros Hc Hl Hs. unfold _process_job, try_finally, try_except.
  unfold bind at 1. cbn [subprocess_run]. unfold ret at 1.
  rewrite Hc. cbn [Z.eqb].
  unfold job_mark_completed, storage_update_job, the_job, assign, on_store,
    bind, utcnow. cbn [fst snd rows lock_held ticks draws].
  rewrite update_job_ok; [|exact Hl|exact Hs].
  cbn [fst snd rows lock_held ticks draws].
  rewrite unlock_job_ok by reflexivity. reflexivity.
Qed.

(** C6. For every job held by the worker whose command exits with code 0,
    [_process_job] returns normally; the row of the job then has state
    [completed], no error message, the attempts counter of the job as it
    was claimed (the job object keeps it too), and no lease; the lock of
    the store is free again. *)
Theorem process_job_success_postcondition rt cp base w job r :
  returncode cp = 0 ->
  lock_held w = false ->
  find_row (Job.id job) (rows w) = Some r ->
  storable (Job.attempts job) (Job.max_retries job) ->
  exists w' job' r',
    _process_job rt (inr cp) base (w, job) = Val tt (w', job') /\
    find_row (Job.id job) (rows w') = Some r' /\
    Row.state r' = value COMPLETED /\
    Row.error_message r' = None /\
    Row.attempts r' = Job.attempts job /\
    Job.attempts job' = Job.attempts job /\
    Row.locked_by r' = None /\ Row.locked_at r' = None /\
    lock_held w' = false.
Proof.
  intros Hc Hl F Hs.
  eexists _, _, _. split; [apply process_job_success; assumption|].
  cbn [rows lock_held].
  split.
  - persisted F.
  - cbn. repeat split; reflexivity.
Qed.

Lemma process_job_success_postcondition_witness :
  exists w' job' r',
    _process_job Sample.rt (Sample.exited 0) 2
      (Sample.store [Sample.held_row "j1" "worker-100-0" "2024-01-01T00:00:00Z"],
       Sample.job_of
         (Sample.held_row "j1" "worker-100-0" "2024-01-01T00:00:00Z"))
    = Val tt (w', job') /\
    find_row "j1" (rows w') = Some r' /\
    Row.state r' = value COMPLETED /\
    Row.error_message r' = None /\
    Row.attempts r' = 0 /\
    Job.attempts job' = 0 /\
    Row.locked_by r' = None /\ Row.locked_at r' = None /\
    lock_held w' = false.
Proof.
  apply (process_job_success_postcondition Sample.rt
           {| returncode := 0; stdout := ""; stderr := "" |} 2
           (Sample.store
              [Sample.held_row "j1" "worker-100-0" "2024-01-01T00:00:00Z"])
           (Sample.job_of
              (Sample.held_row "j1" "worker-100-0" "2024-01-01T00:00:00Z"))
           (Sample.held_row "j1" "worker-100-0" "2024-01-01T00:00:00Z")).
  - reflexivity.
  - reflexivity.
  - reflexivity.
  - split; reflexivity.
Defined.

Lemma process_job_retry rt result base w job :
  is_failure result ->
  lock_held w = false ->
  storable (Job.attempts job + 1) (Job.max_retries job) ->
  Job.attempts job + 1 < Job.max_retries job ->
  retry_time_ok (utc_clock rt (S (ticks w))) base (Job.attempts job + 1) ->
  _process_job rt result base (w, job) =
  Val tt
      (World
         (fst (sql_update (Job.id job) released
            (fst (sql_update (Job.id job)
               (updated (rescheduled rt w base (failure_message result) job))
               (rows w)))))
         false (S (S (ticks w))) (draws w),
       rescheduled rt w base (failure_message result) job).
Proof.
  intros Hf Hl Hs Hlt Hr.
  rewrite (process_job_failure rt result base w job _ _ Hf
             (record_failure_retry rt base _ w job Hl Hs Hlt Hr));
    reflexivity.
Qed.

Lemma process_job_dead rt result base w job :
  is_failure result ->
  lock_held w = false ->
  storable (Job.attempts job + 1) (Job.max_retries job) ->
  Job.max_retries job <= Job.attempts job + 1 ->
  _process_job rt result base (w, job) =
  Val tt
      (World
         (fst (sql_update (Job.id job) released
            (fst (sql_update (Job.id job) (updated (buried rt w job))
               (rows w)))))
         false (S (S (ticks w))) (draws w),
       buried rt w job).
Proof.
  intros Hf Hl Hs Hge.
  rewrite (process_job_failure rt result base w job _ _ Hf
             (record_failure_dead rt base _ w job Hl Hs Hge));
    reflexivity.
Qed.

Lemma value_injective a b : value a = value b -> a = b.
Proof. destruct a, b; simpl; intro H; try reflexivity; discriminate. Qed.

(** C4, as the code has it. For every job held by the worker whose command
    fails, with an attempts counter that is not negative, counters that
    fit the INTEGER columns and a retry time that is a [datetime]:
    [_process_job] persists the attempts counter
    incremented by one; the row is [dead] exactly when the incremented
    counter is at least [max_retries] and [failed] exactly when it is
    below, so no row is left [failed] with [attempts >= max_retries]; for
    a job claimed with [attempts < max_retries] the row is [dead] exactly
    when the counter reaches [max_retries], never on an earlier failure. *)
Theorem failure_dead_exactly_at_max_retries rt result base w job r :
  0 <= Job.attempts job ->
  is_failure result ->
  lock_held w = false ->
  find_row (Job.id job) (rows w) = Some r ->
  storable (Job.attempts job + 1) (Job.max_retries job) ->
  (Job.attempts job + 1 < Job.max_retries job ->
   retry_time_ok (utc_clock rt (S (ticks w))) base (Job.attempts job + 1)) ->
  exists w' job' r',
    _process_job rt result base (w, job) = Val tt (w', job') /\
    find_row (Job.id job) (rows w') = Some r' /\
    Row.attempts r' = Job.attempts job + 1 /\
    (Row.state r' = value DEAD <->
     Job.max_retries job <= Job.attempts job + 1) /\
    (Row.state r' = value FAILED <->
     Job.attempts job + 1 < Job.max_retries job) /\
    (Row.state r' = value FAILED -> Row.attempts r' < Row.max_retries r') /\
    (Job.attempts job < Job.max_retries job ->
     (Row.state r' = value DEAD <-> Row.attempts r' = Job.max_retries job)).
Proof.
  intros _ Hf Hl F Hs Hr.
  destruct (Z.lt_ge_cases (Job.attempts job + 1) (Job.max_retries job))
    as [Hlt|Hge].
  - eexists _, _, _. split; [apply process_job_retry; auto|].
    cbn [rows]. split.
    + persisted F.
    + cbn. repeat split; intros; try lia; try discriminate; try reflexivity.
  - eexists _, _, _. split; [apply process_job_dead; auto|].
    cbn [rows]. split.
    + persisted F.
    + cbn. repeat split; intros; try lia; try discriminate; try reflexivity.
Qed.

Lemma failure_dead_exactly_at_max_retries_witness :
  exists w' job' r',
    _process_job Sample.rt (Sample.exited 1) 2
      (Sample.store [Sample.failing_row "j2" 1 3 None],
       Sample.job_of (Sample.failing_row "j2" 1 3 None))
    = Val tt (w', job') /\
    find_row "j2" (rows w') = Some r' /\
    Row.attempts r' = 1 + 1 /\
    (Row.state r' = value DEAD <-> 3 <= 1 + 1) /\
    (Row.state r' = value FAILED <-> 1 + 1 < 3) /\
    (Row.state r' = value FAILED -> Row.attempts r' < Row.max_retries r') /\
    (1 < 3 -> (Row.state r' = value DEAD <-> Row.attempts r' = 3)).
Proof.
  apply (failure_dead_exactly_at_max_retries Sample.rt (Sample.exited 1) 2
           (Sample.store [Sample.failing_row "j2" 1 3 None])
           (Sample.job_of (Sample.failing_row "j2" 1 3 None))
           (Sample.failing_row "j2" 1 3 None)).
  - simpl. lia.
  - simpl. lia.
  - reflexivity.
  - reflexivity.
  - split; reflexivity.
  - intros _. unfold retry_time_ok. vm_compute. split; discriminate.
Defined.

(** C4, as stated, fails: a job enqueued with [max_retries = 0] is [dead]
    after its first failure, with [attempts = 1]: no failure brings its
    counter to [max_retries]. *)
Lemma dead_past_max_retries :
  exists w' job' r',
    _process_job Sample.rt (Sample.exited 1) 2
      (Sample.store [Sample.failing_row "j2" 0 0 None],
       Sample.job_of (Sample.failing_row "j2" 0 0 None))
    = Val tt (w', job') /\
    find_row "j2" (rows w') = Some r' /\
    Row.state r' = value DEAD /\
    Row.attempts r' = 1 /\ Row.max_retries r' = 0.
Proof.
  eexists _, _, _. split; [vm_compute; reflexivity|].
  split; [vm_compute; reflexivity|]. repeat split.
Qed.

(** C5, as the code has it. Whenever a failure dead-letters a job (its
    incremented attempts counter is at least [max_retries]), the row
    persisted has state [dead], the error message "Exceeded max retries
    (max_retries)", and the [next_retry_at] the job had when it was
    claimed: null when the job had none, the time of its last scheduled
    retry otherwise. The lease is released. *)
Theorem dead_letter_postcondition rt result base w job r :
  is_failure result ->
  lock_held w = false ->
  find_row (Job.id job) (rows w) = Some r ->
  storable (Job.attempts job + 1) (Job.max_retries job) ->
  Job.max_retries job <= Job.attempts job + 1 ->
  exists w' job' r',
    _process_job rt result base (w, job) = Val tt (w', job') /\
    find_row (Job.id job) (rows w') = Some r' /\
    Row.state r' = value DEAD /\
    Row.error_message r' =
      Some ("Exceeded max retries (" ++ str_int (Job.max_retries job) ++ ")") /\
    Row.next_retry_at r' = Job.next_retry_at job /\
    Row.locked_by r' = None /\ Row.locked_at r' = None.
Proof.
  intros Hf Hl F Hs Hge.
  eexists _, _, _. split; [apply process_job_dead; auto|].
  cbn [rows]. split.
  - persisted F.
  - cbn. repeat split; reflexivity.
Qed.

Lemma dead_letter_postcondition_witness :
  exists w' job' r',
    _process_job Sample.rt (Sample.exited 1) 2
      (Sample.store [Sample.failing_row "j2" 1 2 None],
       Sample.job_of (Sample.failing_row "j2" 1 2 None))
    = Val tt (w', job') /\
    find_row "j2" (rows w') = Some r' /\
    Row.state r' = value DEAD /\
    Row.error_message r' =
      Some ("Exceeded max retries (" ++ str_int 2 ++ ")") /\
    Row.next_retry_at r' = None /\
    Row.locked_by r' = None /\ Row.locked_at r' = None.
Proof.
  apply (dead_letter_postcondition Sample.rt (Sample.exited 1) 2
           (Sample.store [Sample.failing_row "j2" 1 2 None])
           (Sample.job_of (Sample.failing_row "j2" 1 2 None))
           (Sample.failing_row "j2" 1 2 None)).
  - simpl. lia.
  - reflexivity.
  - reflexivity.
  - split; reflexivity.
  - simpl. lia.
Defined.

(** C5, as stated, fails: the second failure of a job with [max_retries =
    2] dead-letters it and the row keeps the retry time the first failure
    scheduled. *)
Lemma dead_row_keeps_next_retry_at :
  exists w' job' r',
    _process_job Sample.rt (Sample.exited 1) 2
      (Sample.store
         [Sample.failing_row "j2" 1 2 (Some "2024-01-01T00:00:02Z")],
       Sample.job_of
         (Sample.failing_row "j2" 1 2 (Some "2024-01-01T00:00:02Z")))
    = Val tt (w', job') /\
    find_row "j2" (rows w') = Some r' /\
    Row.state r' = value DEAD /\
    Row.next_retry_at r' = Some "2024-01-01T00:00:02Z" /\
    Row.next_retry_at r' <> None.
Proof.
  eexists _, _, _. split; [vm_compute; reflexivity|].
  split; [vm_compute; reflexivity|]. repeat split. discriminate.
Qed.

(** ** Backoff *)

(** C7. The retry delay is [backoff_base] to the power [attempts]; after
    [mark_failed] that is the power [attempts + 1], the counter
    incremented for the current failure, and [set_next_retry_time] then
    schedules the retry that many seconds after the clock reading; for
    every [backoff_base > 1] the delay after one more failure is strictly
    longer. *)
Theorem backoff_law rt base job now text :
  0 <= Job.attempts job ->
  Job.calculate_retry_delay base job = base ^ Job.attempts job /\
  Job.calculate_retry_delay base (Job.mark_failed rt now text job)
    = base ^ (Job.attempts job + 1) /\
  (forall reading,
     retry_time_ok reading base (Job.attempts job + 1) ->
     exists job',
       Job.set_next_retry_time rt reading base
         (Job.mark_failed rt now text job) = inr job' /\
       Job.next_retry_at job' =
         Some (stamp rt (reading + base ^ (Job.attempts job + 1) * MICROS))) /\
  (1 < base ->
   Job.calculate_retry_delay base job
   < Job.calculate_retry_delay base (Job.mark_failed rt now text job)).
Proof.
  intro Ha. unfold Job.calculate_retry_delay. cbn [Job.mark_failed Job.attempts].
  repeat split.
  - intros reading [H1 H2]. unfold Job.set_next_retry_time,
      Job.calculate_retry_delay. cbn [Job.mark_failed Job.attempts].
    apply Z.leb_le in H1, H2. rewrite H1, H2. cbn [andb].
    eexists. split; reflexivity.
  - intro Hb. apply Z.pow_lt_mono_r; lia.
Qed.

Lemma backoff_law_witness :
  Job.calculate_retry_delay 2 (Sample.job_of (Sample.failing_row "j3" 0 2 None))
    = 2 ^ 0 /\
  Job.calculate_retry_delay 2
    (Job.mark_failed Sample.rt Sample.T0 (Some "Command failed")
       (Sample.job_of (Sample.failing_row "j3" 0 2 None)))
    = 2 ^ (0 + 1) /\
  (forall reading,
     retry_time_ok reading 2 (0 + 1) ->
     exists job',
       Job.set_next_retry_time Sample.rt reading 2
         (Job.mark_failed Sample.rt Sample.T0 (Some "Command failed")
            (Sample.job_of (Sample.failing_row "j3" 0 2 None))) = inr job' /\
       Job.next_retry_at job' =
         Some (stamp Sample.rt (reading + 2 ^ (0 + 1) * MICROS))) /\
  (1 < 2 ->
   Job.calculate_retry_delay 2 (Sample.job_of (Sample.failing_row "j3" 0 2 None))
   < Job.calculate_retry_delay 2
       (Job.mark_failed Sample.rt Sample.T0 (Some "Command failed")
          (Sample.job_of (Sample.failing_row "j3" 0 2 None)))).
Proof.
  apply (backoff_law Sample.rt 2
           (Sample.job_of (Sample.failing_row "j3" 0 2 None))
           Sample.T0 (Some "Command failed")).
  simpl. lia.
Defined.

(** ** Persistence *)

Lemma JobState_of_value st : JobState_of (value st) = Some st.
Proof. destruct st; reflexivity. Qed.

Lemma find_row_id job_id rs r : find_row job_id rs = Some r -> Row.id r = job_id.
Proof.
  unfold find_row. intro H. apply find_some in H. destruct H as [_ H].
  apply String.eqb_eq in H. exact H.
Qed.

Lemma find_row_app_new job_id rs r :
  find_row job_id rs = None ->
  Row.id r = job_id ->
  find_row job_id (rs ++ [r])%list = Some r.
Proof.
  unfold find_row. intros H E.
  induction rs as [|a rs IH]; simpl in *.
  - rewrite E, String.eqb_refl. reflexivity.
  - destruct (Row.id a =? job_id)%string; [discriminate|]. apply IH. exact H.
Qed.

Lemma or_else_some s d : s <> "" -> or_else (Some s) d = s.
Proof. intro H. unfold or_else. destruct s; [congruence|reflexivity]. Qed.

(** What [_row_to_job] builds from a row whose texts are not empty and
    whose state is one of the five. *)
Lemma row_to_job_ok rt r st w :
  Row.id r <> "" -> Row.created_at r <> "" -> Row.updated_at r <> "" ->
  JobState_of (Row.state r) = Some st ->
  _row_to_job rt r w =
  Val (Job.mk (Row.id r) (Row.command r) st (Row.attempts r)
              (Row.max_retries r) (Row.created_at r) (Row.updated_at r)
              (Row.error_message r) (Row.next_retry_at r)
              (Row.locked_by r) (Row.locked_at r))
      (World (rows w) (lock_held w) (S (ticks w)) (draws w)).
Proof.
  intros Hi Hc Hu Hs. unfold _row_to_job, Job_init, bind.
  assert (T : truthy (Some (Row.id r)) = true)
    by (simpl; destruct (Row.id r); [congruence|reflexivity]).
  rewrite T. unfold ret at 1. rewrite Hs. unfold ret at 1.
  unfold utcnow, ret. cbn [rows lock_held ticks draws Job.id Job.command
    Job.state Job.attempts Job.max_retries Job.created_at Job.updated_at
    Job.error_message Job.next_retry_at].
  rewrite !or_else_some by assumption. reflexivity.
Qed.

(** C8. For every job (an object of the class: its [id], [created_at] and
    [updated_at] are not empty) whose id is not in the table and whose
    counters fit the INTEGER columns, [add_job] returns and a following
    [get_job] on its id returns a job with the same nine fields: id,
    command, state, attempts, max_retries, created_at, updated_at,
    error_message, next_retry_at. *)
Theorem add_then_get_round_trip rt w job :
  lock_held w = false ->
  find_row (Job.id job) (rows w) = None ->
  storable (Job.attempts job) (Job.max_retries job) ->
  Job.id job <> "" -> Job.created_at job <> "" -> Job.updated_at job <> "" ->
  exists w1 w2 job',
    add_job job w = Val job w1 /\
    get_job rt (Job.id job) w1 = Val (Some job') w2 /\
    Job.to_dict job' = Job.to_dict job /\
    Job.id job' = Job.id job /\ Job.command job' = Job.command job /\
    Job.state job' = Job.state job /\ Job.attempts job' = Job.attempts job /\
    Job.max_retries job' = Job.max_retries job /\
    Job.created_at job' = Job.created_at job /\
    Job.updated_at job' = Job.updated_at job /\
    Job.error_message job' = Job.error_message job /\
    Job.next_retry_at job' = Job.next_retry_at job.
Proof.
  intros Hl F [Ha Hm] Hi Hc Hu.
  unfold add_job, with_lock, bind. rewrite Hl.
  cbn [set_lock rows lock_held ticks draws]. rewrite Ha, Hm, F.
  cbn [andb negb]. unfold ret at 1.
  eexists _, _, _. split; [reflexivity|].
  unfold get_job, with_lock, set_rows, set_lock, bind, table.
  cbn [rows lock_held ticks draws].
  rewrite (find_row_app_new (Job.id job) (rows w) (inserted job) F eq_refl).
  rewrite (row_to_job_ok rt (inserted job) (Job.state job));
    try assumption; [|apply JobState_of_value].
  unfold ret. split; [reflexivity|]. cbn. repeat split; reflexivity.
Qed.

Lemma add_then_get_round_trip_witness :
  exists w1 w2 job',
    add_job (Sample.job_of (Sample.failing_row "j2" 1 2 (Some "2024-01-01T00:00:02Z")))
            (Sample.store [Sample.new_row "j1" "true" 3])
    = Val (Sample.job_of (Sample.failing_row "j2" 1 2 (Some "2024-01-01T00:00:02Z"))) w1 /\
    get_job Sample.rt "j2" w1 = Val (Some job') w2 /\
    Job.to_dict job' =
      Job.to_dict (Sample.job_of (Sample.failing_row "j2" 1 2 (Some "2024-01-01T00:00:02Z"))) /\
    Job.id job' = "j2" /\ Job.command job' = "false" /\
    Job.state job' = PROCESSING /\ Job.attempts job' = 1 /\
    Job.max_retries job' = 2 /\
    Job.created_at job' = "2024-01-01T00:00:00Z" /\
    Job.updated_at job' = "2024-01-01T00:00:00Z" /\
    Job.error_message job' = None /\
    Job.next_retry_at job' = Some "2024-01-01T00:00:02Z".
Proof.
  apply (add_then_get_round_trip Sample.rt
           (Sample.store [Sample.new_row "j1" "true" 3])
           (Sample.job_of
              (Sample.failing_row "j2" 1 2 (Some "2024-01-01T00:00:02Z")))).
  - reflexivity.
  - reflexivity.
  - split; reflexivity.
  - discriminate.
  - discriminate.
  - discriminate.
Defined.

(** The constructor makes the three texts that [_row_to_job] reads back
    through [or]. *)
Lemma Job_init_nonempty rt id command state attempts max_retries created_at
      updated_at error_message next_retry_at w job w' :
  uuid_source rt (draws w) <> "" ->
  Job_init rt id command state attempts max_retries created_at updated_at
           error_message next_retry_at w = Val job w' ->
  Job.id job <> "" /\ Job.created_at job <> "" /\ Job.updated_at job <> "".
Proof.
  intros Hu. unfold Job_init, bind.
  assert (Hor : forall x d, d <> "" -> or_else x d <> "").
  { intros x d Hd. unfold or_else. destruct x as [s|]; [|exact Hd].
    destruct s; [exact Hd|discriminate]. }
  destruct (truthy id) eqn:T.
  - unfold ret at 1.
    destruct (JobState_of state); [|unfold raise; discriminate].
    unfold ret at 1. unfold utcnow, ret. intro H. inversion H; subst. cbn.
    repeat split; try (apply Hor; apply stamp_nonempty).
    destruct id as [s|]; [|discriminate]. cbn in *.
    destruct s; [discriminate|discriminate].
  - unfold uuid4.
    destruct (JobState_of state); [|unfold raise; discriminate].
    unfold ret at 1. unfold utcnow, ret. intro H. inversion H; subst. cbn.
    repeat split; try (apply Hor; apply stamp_nonempty). exact Hu.
Qed.

(** ** [dlq retry] *)

Lemma retry_not_found rt job_id w :
  lock_held w = false ->
  find_row job_id (rows w) = None ->
  retry rt job_id w =
  Val {| exit_code := 1; echo := "Error: Job " ++ job_id ++ " not found" |} w.
Proof.
  intros Hl F. unfold retry, get_job, try_except, with_lock, table, bind.
  rewrite Hl. cbn [set_lock rows lock_held ticks draws]. rewrite F.
  unfold ret. destruct w; cbn in *; subst; reflexivity.
Qed.

Lemma retry_not_in_dlq rt job_id w r st :
  lock_held w = false ->
  find_row job_id (rows w) = Some r ->
  job_id <> "" -> Row.created_at r <> "" -> Row.updated_at r <> "" ->
  JobState_of (Row.state r) = Some st -> st <> DEAD ->
  retry rt job_id w =
  Val {| exit_code := 1;
         echo := "Error: Job " ++ job_id ++ " is not in Dead Letter Queue" |}
      (World (rows w) false (S (ticks w)) (draws w)).
Proof.
  intros Hl F Hi Hc Hu Hs Hd.
  pose proof (find_row_id _ _ _ F) as Hid.
  unfold retry, get_job, try_except, with_lock, table, bind.
  rewrite Hl. cbn [set_lock rows lock_held ticks draws]. rewrite F.
  rewrite (row_to_job_ok rt r st); try assumption; [|congruence].
  unfold ret. cbn [set_lock rows lock_held ticks draws Job.state].
  destruct st; try congruence; reflexivity.
Qed.

Lemma retry_dead_resets rt job_id w r :
  lock_held w = false ->
  find_row job_id (rows w) = Some r ->
  job_id <> "" -> Row.created_at r <> "" -> Row.updated_at r <> "" ->
  Row.state r = value DEAD ->
  sqlite_int (Row.max_retries r) = true ->
  exists w',
    retry rt job_id w =
    Val {| exit_code := 0;
           echo := "Job " ++ job_id ++ " moved back to pending queue" |} w' /\
    lock_held w' = false /\ ticks w' = S (S (ticks w)) /\
    find_row job_id (rows w') =
      Some (revived rt (utc_clock rt (S (ticks w))) r).
Proof.
  intros Hl F Hi Hc Hu Hs Hm.
  pose proof (find_row_id _ _ _ F) as Hid.
  unfold retry, get_job, try_except, with_lock, table, bind.
  rewrite Hl. cbn [set_lock rows lock_held ticks draws]. rewrite F.
  rewrite (row_to_job_ok rt r DEAD); try assumption;
    [|congruence|rewrite Hs; reflexivity].
  unfold ret, utcnow.
  cbn [set_lock rows lock_held ticks draws Job.state JobState_eqb negb].
  rewrite update_job_ok; [|reflexivity|split; [reflexivity|exact Hm]].
  cbn [rows lock_held ticks draws Job.id].
  eexists. split; [reflexivity|]. cbn [rows lock_held ticks draws].
  repeat split. rewrite Hid.
  rewrite sql_update_find with (r := r); [|reflexivity|exact F].
  reflexivity.
Qed.

(** After [dlq retry] the job is the candidate of the next poll when its
    row carries no lease, and the poll never returns. *)
Lemma retry_then_get_next_job_blocks rt job_id worker base w r w' code :
  retry rt job_id w = Val code w' ->
  exit_code code = 0 ->
  lock_held w = false ->
  find_row job_id (rows w) = Some r ->
  job_id <> "" -> Row.created_at r <> "" -> Row.updated_at r <> "" ->
  Row.state r = value DEAD ->
  sqlite_int (Row.max_retries r) = true ->
  Row.locked_by r = None ->
  get_next_job rt worker base w' = Blocks.
Proof.
  intros E _ Hl F Hi Hc Hu Hs Hm Hb.
  destruct (retry_dead_resets rt job_id w r Hl F Hi Hc Hu Hs Hm)
    as [w2 [E2 [Hl2 [_ F2]]]].
  rewrite E in E2. inversion E2; subst w2.
  apply get_next_job_blocks
    with (r := revived rt (utc_clock rt (S (ticks w))) r).
  - exact Hl2.
  - unfold find_row in F2. apply find_some in F2. apply F2.
  - unfold candidate, pending_candidate, no_lease. cbn. rewrite Hb. reflexivity.
Qed.

(** C9. Its last clause does not hold of the code. [dlq retry] on the
    dead job j2 exits with 0 and leaves the row [pending] with [attempts =
    0], no error message and no retry time; the next [get_next_job]
    selects that row and never returns, so no worker claims the job. *)
Theorem retried_job_is_never_claimed :
  exists w',
    retry Sample.rt "j2" (Sample.store [Sample.dead_row "j2"]) =
    Val {| exit_code := 0; echo := "Job j2 moved back to pending queue" |} w' /\
    rows w' =
      [Row.mk "j2" "false" "pending" 0 2 "2024-01-01T00:00:00Z"
              "2024-01-01T00:00:01Z" None None None None] /\
    get_next_job Sample.rt "worker-100-0" 2 w' = Blocks.
Proof.
  eexists. split; [vm_compute; reflexivity|].
  split; [reflexivity|]. vm_compute. reflexivity.
Qed.

(** * Further properties of the store *)

Lemma sql_update_ids job_id f rs :
  (forall r, Row.id (f r) = Row.id r) ->
  ids (fst (sql_update job_id f rs)) = ids rs.
Proof.
  intro Hf. unfold ids, sql_update. cbn [fst]. rewrite map_map.
  apply map_ext. intro r. destruct (Row.id r =? job_id)%string; auto.
Qed.

Lemma sql_update_states job_id f rs :
  (forall r, JobState_of (Row.state r) <> None ->
             JobState_of (Row.state (f r)) <> None) ->
  valid_states rs -> valid_states (fst (sql_update job_id f rs)).
Proof.
  intros Hf Hv. unfold valid_states, sql_update in *. cbn [fst].
  apply Forall_map. eapply Forall_impl; [|exact Hv].
  intros r Hr. cbn beta. destruct (Row.id r =? job_id)%string; auto.
Qed.

Lemma find_row_not_in job_id rs :
  find_row job_id rs = None -> ~ In job_id (ids rs).
Proof.
  unfold find_row, ids. intros H Hin. apply in_map_iff in Hin.
  destruct Hin as [r [E Hr]].
  pose proof (find_none _ _ H r Hr) as N. cbn beta in N.
  rewrite E, String.eqb_refl in N. discriminate.
Qed.

Lemma find_row_app_old other rs r x :
  find_row other rs = Some r -> find_row other (rs ++ [x])%list = Some r.
Proof.
  unfold find_row. induction rs as [|a rs IH]; simpl; [discriminate|].
  destruct (Row.id a =? other)%string; auto.
Qed.

(** How [lock_job] ends: refused with the table as it was, or granted
    with the lease written over the rows of that id. *)
Lemma lock_job_ends rt job_id worker w :
  lock_held w = false ->
  exists b w',
    lock_job rt job_id worker w = Val b w' /\ lock_held w' = false /\
    (rows w' = rows w \/
     exists now, rows w' = fst (sql_update job_id (leased worker now) (rows w))).
Proof.
  intro Hl. unfold lock_job, with_lock. rewrite Hl. unfold bind at 1.
  destruct (lock_job_check_shape rt job_id (set_lock true w))
    as [fresh [k [E _]]].
  rewrite E. unfold set_lock. cbn [rows lock_held ticks draws].
  destruct fresh.
  - unfold ret. eexists _, _. split; [reflexivity|]. cbn. auto.
  - unfold lock_job_write, bind, utcnow. cbn [rows lock_held ticks draws].
    destruct (sql_update job_id (leased worker (stamp rt (utc_clock rt k)))
                         (rows w)) as [rs n] eqn:U.
    eexists _, _. split; [reflexivity|]. cbn [rows lock_held set_rows].
    split; [reflexivity|].
    right. exists (stamp rt (utc_clock rt k)). rewrite U. reflexivity.
Qed.

(** X1.  [add_job] on an id the table already has raises
    [IntegrityError]; the table is as it was and the lock of the store is
    free again. *)
Theorem add_job_duplicate_id job w r :
  lock_held w = false ->
  find_row (Job.id job) (rows w) = Some r ->
  storable (Job.attempts job) (Job.max_retries job) ->
  add_job job w =
  Raise (Exn IntegrityError "UNIQUE constraint failed: jobs.id") w.
Proof.
  intros Hl F [Ha Hm]. unfold add_job, with_lock, bind. rewrite Hl.
  cbn [set_lock rows lock_held ticks draws]. rewrite Ha, Hm, F.
  cbn [andb negb]. destruct w; cbn in *; subst; reflexivity.
Qed.

Lemma add_job_duplicate_id_witness :
  add_job (Sample2.new_job "j1" "echo again" 3)
          (Sample.store [Sample.new_row "j1" "true" 3]) =
  Raise (Exn IntegrityError "UNIQUE constraint failed: jobs.id")
        (Sample.store [Sample.new_row "j1" "true" 3]).
Proof.
  apply (add_job_duplicate_id (Sample2.new_job "j1" "echo again" 3)
           (Sample.store [Sample.new_row "j1" "true" 3])
           (Sample.new_row "j1" "true" 3)).
  - reflexivity.
  - reflexivity.
  - split; reflexivity.
Defined.

(** X2.  [add_job] keeps the ids of the table distinct and keeps every
    row it had, however it ends. *)
Theorem add_job_keeps_table job w :
  NoDup (ids (rows w)) ->
  after (add_job job w)
        (fun w' => NoDup (ids (rows w')) /\
                   forall other r, find_row other (rows w) = Some r ->
                                   find_row other (rows w') = Some r).
Proof.
  intro Hn. unfold add_job, with_lock, bind.
  destruct (lock_held w); [exact I|].
  cbn [set_lock rows lock_held ticks draws].
  destruct (negb _); [cbn; auto|].
  destruct (find_row (Job.id job) (rows w)) eqn:F; [cbn; auto|].
  cbn [after ret set_rows set_lock rows]. split.
  - unfold ids. rewrite map_app. cbn [map inserted Row.id].
    apply NoDup_app; [exact Hn|repeat constructor; intros []|].
    intros x Hx [<-|[]]. exact (find_row_not_in _ _ F Hx).
  - intros other r Hr. apply find_row_app_old. exact Hr.
Qed.

Lemma add_job_keeps_table_witness :
  after (add_job (Sample2.new_job "j2" "echo again" 3)
                 (Sample.store [Sample.new_row "j1" "true" 3]))
        (fun w' => NoDup (ids (rows w')) /\
                   forall other r,
                     find_row other
                       (rows (Sample.store [Sample.new_row "j1" "true" 3]))
                     = Some r ->
                     find_row other (rows w') = Some r).
Proof.
  apply (add_job_keeps_table (Sample2.new_job "j2" "echo again" 3)
           (Sample.store [Sample.new_row "j1" "true" 3])).
  repeat constructor. intros [].
Defined.

Lemma update_job_ends job w :
  lock_held w = false ->
  update_job job w = Raise int_too_large w \/
  update_job job w =
  Val tt (World (fst (sql_update (Job.id job) (updated job) (rows w)))
                false (ticks w) (draws w)).
Proof.
  intro Hl. unfold update_job, with_lock. rewrite Hl.
  cbn [set_lock rows lock_held ticks draws].
  destruct (negb _); [left|right; reflexivity].
  destruct w; cbn in *; subst; reflexivity.
Qed.

Lemma after_blocked {A} (m : M world A) w (P : world -> Prop) :
  lock_held w = true -> after (with_lock m w) P.
Proof. intro H. unfold with_lock. rewrite H. exact I. Qed.

(** X3.  The writes of the store other than [add_job] never add, delete
    or rename a job: after [update_job], [lock_job] and [unlock_job],
    however they end, the table has the ids it had, in the same order. *)
Theorem writes_keep_ids rt job job_id worker w :
  after (update_job job w) (fun w' => ids (rows w') = ids (rows w)) /\
  after (lock_job rt job_id worker w)
        (fun w' => ids (rows w') = ids (rows w)) /\
  after (unlock_job job_id w) (fun w' => ids (rows w') = ids (rows w)).
Proof.
  destruct (lock_held w) eqn:Hl.
  - repeat split; apply after_blocked; exact Hl.
  - repeat split.
    + destruct (update_job_ends job w Hl) as [E|E]; rewrite E; cbn.
      * reflexivity.
      * apply sql_update_ids. reflexivity.
    + destruct (lock_job_ends rt job_id worker w Hl)
        as [b [w' [E [_ [R|[now R]]]]]]; rewrite E; cbn; rewrite R.
      * reflexivity.
      * apply sql_update_ids. reflexivity.
    + rewrite (unlock_job_ok job_id w Hl). cbn.
      apply sql_update_ids. reflexivity.
Qed.

(** X4.  Every write of the store leaves in each [state] column the
    value of a [JobState] when the table had only such values, so
    [_row_to_job] never meets an unknown state in a table this code
    wrote. *)
Theorem writes_keep_states_valid rt job job_id worker w :
  valid_states (rows w) ->
  after (add_job job w) (fun w' => valid_states (rows w')) /\
  after (update_job job w) (fun w' => valid_states (rows w')) /\
  after (lock_job rt job_id worker w) (fun w' => valid_states (rows w')) /\
  after (unlock_job job_id w) (fun w' => valid_states (rows w')).
Proof.
  intro Hv. destruct (lock_held w) eqn:Hl.
  - repeat split; try (apply after_blocked; exact Hl).
    unfold add_job, bind, with_lock. rewrite Hl. exact I.
  - repeat split.
    + unfold add_job, with_lock, bind. rewrite Hl.
      cbn [set_lock rows lock_held ticks draws].
      destruct (negb _); [exact Hv|].
      destruct (find_row (Job.id job) (rows w)); [exact Hv|].
      cbn. unfold valid_states. apply Forall_app. split; [exact Hv|].
      constructor; [|constructor]. cbn. rewrite JobState_of_value. discriminate.
    + destruct (update_job_ends job w Hl) as [E|E]; rewrite E; cbn.
      * exact Hv.
      * apply sql_update_states; [|exact Hv].
        intros r _. cbn. rewrite JobState_of_value. discriminate.
    + destruct (lock_job_ends rt job_id worker w Hl)
        as [b [w' [E [_ [R|[now R]]]]]]; rewrite E; cbn; rewrite R.
      * exact Hv.
      * apply sql_update_states; [|exact Hv]. intros r _. cbn. discriminate.
    + rewrite (unlock_job_ok job_id w Hl). cbn.
      apply sql_update_states; [|exact Hv]. intros r Hr. exact Hr.
Qed.

Lemma writes_keep_states_valid_witness :
  after (add_job (Sample2.new_job "j2" "echo again" 3)
                 (Sample.store [Sample.new_row "j1" "true" 3]))
        (fun w' => valid_states (rows w')) /\
  after (update_job (Sample2.new_job "j2" "echo again" 3)
                    (Sample.store [Sample.new_row "j1" "true" 3]))
        (fun w' => valid_states (rows w')) /\
  after (lock_job Sample.rt "j1" "worker-100-0"
                  (Sample.store [Sample.new_row "j1" "true" 3]))
        (fun w' => valid_states (rows w')) /\
  after (unlock_job "j1" (Sample.store [Sample.new_row "j1" "true" 3]))
        (fun w' => valid_states (rows w')).
Proof.
  apply (writes_keep_states_valid Sample.rt
           (Sample2.new_job "j2" "echo again" 3) "j1" "worker-100-0"
           (Sample.store [Sample.new_row "j1" "true" 3])).
  repeat constructor. discriminate.
Defined.

Lemma sql_update_twice job_id f rs :
  (forall r, Row.id (f r) = Row.id r) ->
  (forall r, f (f r) = f r) ->
  fst (sql_update job_id f (fst (sql_update job_id f rs))) =
  fst (sql_update job_id f rs).
Proof.
  intros Hid Hf. unfold sql_update. cbn [fst]. rewrite map_map.
  apply map_ext. intro r.
  destruct (Row.id r =? job_id)%string eqn:E.
  - rewrite Hid, E. apply Hf.
  - rewrite E. reflexivity.
Qed.

(** X5.  [update_job] is no upsert: for a job whose id the table does
    not have it returns normally and changes nothing. *)
Theorem update_job_unknown_id job w :
  lock_held w = false ->
  find_row (Job.id job) (rows w) = None ->
  storable (Job.attempts job) (Job.max_retries job) ->
  update_job job w = Val tt w.
Proof.
  intros Hl F Hs. rewrite update_job_ok by assumption.
  rewrite sql_update_miss by exact F. destruct w; cbn in *; subst; reflexivity.
Qed.

Lemma update_job_unknown_id_witness :
  update_job (Sample2.new_job "j2" "echo again" 3)
             (Sample.store [Sample.new_row "j1" "true" 3]) =
  Val tt (Sample.store [Sample.new_row "j1" "true" 3]).
Proof.
  apply (update_job_unknown_id (Sample2.new_job "j2" "echo again" 3)
           (Sample.store [Sample.new_row "j1" "true" 3])).
  - reflexivity.
  - reflexivity.
  - split; reflexivity.
Defined.

(** X6.  [update_job] then [get_job]: the job read back has every field
    of the job written, lease attributes included, except [created_at],
    which stays that of the row; the other rows are untouched. *)
Theorem update_then_get rt job w r :
  lock_held w = false ->
  find_row (Job.id job) (rows w) = Some r ->
  storable (Job.attempts job) (Job.max_retries job) ->
  Job.id job <> "" -> Row.created_at r <> "" -> Job.updated_at job <> "" ->
  exists w1 w2,
    update_job job w = Val tt w1 /\
    get_job rt (Job.id job) w1 =
    Val (Some (Job.mk (Job.id job) (Job.command job) (Job.state job)
                      (Job.attempts job) (Job.max_retries job)
                      (Row.created_at r) (Job.updated_at job)
                      (Job.error_message job) (Job.next_retry_at job)
                      (Job.locked_by job) (Job.locked_at job))) w2 /\
    forall other, other <> Job.id job ->
                  find_row other (rows w1) = find_row other (rows w).
Proof.
  intros Hl F Hs Hi Hc Hu. pose proof (find_row_id _ _ _ F) as Hid.
  rewrite update_job_ok by assumption.
  eexists _, _. split; [reflexivity|]. cbn [rows]. split.
  - unfold get_job, with_lock, table, bind.
    cbn [set_lock rows lock_held ticks draws].
    rewrite (sql_update_find (Job.id job) (updated job) (fun _ => eq_refl)
               (rows w) r F).
    rewrite (row_to_job_ok rt (updated job r) (Job.state job)); cbn;
      try assumption; try congruence; [|apply JobState_of_value].
    rewrite Hid. reflexivity.
  - intros other Hne. apply sql_update_other; [reflexivity|exact Hne].
Qed.

Lemma update_then_get_witness :
  exists w1 w2,
    update_job (Sample2.new_job "j1" "echo again" 5)
               (Sample.store [Sample.held_row "j1" "worker-100-0"
                                              "2024-01-01T00:00:01Z"])
    = Val tt w1 /\
    get_job Sample.rt "j1" w1 =
    Val (Some (Job.mk "j1" "echo again" PENDING 0 5
                      "2024-01-01T00:00:00Z" "2024-01-01T00:00:00Z"
                      None None None None)) w2 /\
    forall other, other <> "j1" ->
      find_row other (rows w1) =
      find_row other
        (rows (Sample.store [Sample.held_row "j1" "worker-100-0"
                                             "2024-01-01T00:00:01Z"])).
Proof.
  apply (update_then_get Sample.rt (Sample2.new_job "j1" "echo again" 5)
           (Sample.store [Sample.held_row "j1" "worker-100-0"
                                          "2024-01-01T00:00:01Z"])
           (Sample.held_row "j1" "worker-100-0" "2024-01-01T00:00:01Z")).
  - reflexivity.
  - reflexivity.
  - split; reflexivity.
  - discriminate.
  - discriminate.
  - discriminate.
Defined.

(** X7.  [unlock_job] is safe to repeat and touches the lease only: it
    returns normally; the row of the job, if any, then has NULL in
    [locked_by] and in [locked_at] and its nine other columns as they
    were; without such a row the table is unchanged; a second
    [unlock_job] changes nothing more; no other row changes. *)
Theorem unlock_job_idempotent job_id w :
  lock_held w = false ->
  exists w1,
    unlock_job job_id w = Val tt w1 /\
    unlock_job job_id w1 = Val tt w1 /\
    (forall r, find_row job_id (rows w) = Some r ->
       exists r',
         find_row job_id (rows w1) = Some r' /\
         Row.locked_by r' = None /\ Row.locked_at r' = None /\
         (Row.id r', Row.command r', Row.state r', Row.attempts r',
          Row.max_retries r', Row.created_at r', Row.updated_at r',
          Row.error_message r', Row.next_retry_at r')
         = (Row.id r, Row.command r, Row.state r, Row.attempts r,
            Row.max_retries r, Row.created_at r, Row.updated_at r,
            Row.error_message r, Row.next_retry_at r)) /\
    (find_row job_id (rows w) = None -> rows w1 = rows w) /\
    (forall other, other <> job_id ->
                   find_row other (rows w1) = find_row other (rows w)).
Proof.
  intro Hl. rewrite (unlock_job_ok job_id w Hl).
  eexists. split; [reflexivity|]. split.
  - rewrite unlock_job_ok by reflexivity. cbn [rows lock_held ticks draws].
    rewrite sql_update_twice; reflexivity.
  - cbn [rows]. split; [|split].
    + intros r F. exists (released r). split.
      * apply sql_update_find; [reflexivity|exact F].
      * repeat split; reflexivity.
    + intro F. rewrite sql_update_miss by exact F. reflexivity.
    + intros other Hne. apply sql_update_other; [reflexivity|exact Hne].
Qed.

Lemma unlock_job_idempotent_witness :
  exists w1,
    unlock_job "j1" (Sample.store [Sample.held_row "j1" "worker-100-0"
                                                   "2024-01-01T00:00:01Z"])
    = Val tt w1 /\
    unlock_job "j1" w1 = Val tt w1 /\
    (forall r,
       find_row "j1" (rows (Sample.store [Sample.held_row "j1" "worker-100-0"
                                            "2024-01-01T00:00:01Z"])) = Some r ->
       exists r',
         find_row "j1" (rows w1) = Some r' /\
         Row.locked_by r' = None /\ Row.locked_at r' = None /\
         (Row.id r', Row.command r', Row.state r', Row.attempts r',
          Row.max_retries r', Row.created_at r', Row.updated_at r',
          Row.error_message r', Row.next_retry_at r')
         = (Row.id r, Row.command r, Row.state r, Row.attempts r,
            Row.max_retries r, Row.created_at r, Row.updated_at r,
            Row.error_message r, Row.next_retry_at r)) /\
    (find_row "j1" (rows (Sample.store [Sample.held_row "j1" "worker-100-0"
                                          "2024-01-01T00:00:01Z"])) = None ->
     rows w1 = rows (Sample.store [Sample.held_row "j1" "worker-100-0"
                                     "2024-01-01T00:00:01Z"])) /\
    (forall other, other <> "j1" ->
       find_row other (rows w1) =
       find_row other (rows (Sample.store [Sample.held_row "j1" "worker-100-0"
                                             "2024-01-01T00:00:01Z"]))).
Proof.
  apply (unlock_job_idempotent "j1"
           (Sample.store [Sample.held_row "j1" "worker-100-0"
                                          "2024-01-01T00:00:01Z"])).
  reflexivity.
Defined.

(** X8.  [lock_job] on an id the table does not have returns [False] and
    changes no row. *)
Theorem lock_job_unknown_id rt job_id worker w :
  lock_held w = false ->
  find_row job_id (rows w) = None ->
  lock_job rt job_id worker w =
  Val false (World (rows w) false (S (ticks w)) (draws w)).
Proof.
  intros Hl F. unfold lock_job, with_lock. rewrite Hl. unfold bind at 1.
  unfold lock_job_check, bind, table. cbn [set_lock rows lock_held ticks draws].
  rewrite F. unfold ret at 1.
  unfold lock_job_write, bind, utcnow. cbn [rows lock_held ticks draws].
  rewrite sql_update_miss by exact F. reflexivity.
Qed.

Lemma lock_job_unknown_id_witness :
  lock_job Sample.rt "j9" "worker-100-0"
           (Sample.store [Sample.new_row "j1" "true" 3]) =
  Val false (World [Sample.new_row "j1" "true" 3] false 1 0).
Proof.
  apply (lock_job_unknown_id Sample.rt "j9" "worker-100-0"
           (Sample.store [Sample.new_row "j1" "true" 3])).
  - reflexivity.
  - reflexivity.
Defined.

(** X9.  [lock_job] does not look at the state of the job: on any row
    whose [locked_by] is NULL or empty, a completed or dead one included,
    it returns [True]; the row then has the state [processing], the
    caller in [locked_by] and the clock reading of the call (as
    [isoformat() + "Z"]) in [locked_at], its eight other columns being as
    they were. *)
Theorem lock_job_ignores_state rt job_id worker w r :
  lock_held w = false ->
  find_row job_id (rows w) = Some r ->
  truthy (Row.locked_by r) = false ->
  exists w' r',
    lock_job rt job_id worker w = Val true w' /\
    find_row job_id (rows w') = Some r' /\
    Row.state r' = "processing" /\
    Row.locked_by r' = Some worker /\
    Row.locked_at r' = Some (isoformat rt (utc_clock rt (ticks w)) ++ "Z") /\
    (Row.id r', Row.command r', Row.attempts r', Row.max_retries r',
     Row.created_at r', Row.updated_at r', Row.error_message r',
     Row.next_retry_at r')
    = (Row.id r, Row.command r, Row.attempts r, Row.max_retries r,
       Row.created_at r, Row.updated_at r, Row.error_message r,
       Row.next_retry_at r).
Proof.
  intros Hl F T.
  destruct (lock_job_grants_after rt job_id worker w r (ticks w) Hl F)
    as [w' [E [_ [_ G]]]].
  - rewrite (lock_job_check_no_lease rt job_id (set_lock true w) r F T).
    reflexivity.
  - exists w', (leased worker (poll_time rt w) r).
    split; [exact E|]. split; [exact G|].
    repeat split; reflexivity.
Qed.

Lemma lock_job_ignores_state_witness :
  exists w' r',
    lock_job Sample.rt "j1" "worker-100-0"
             (Sample.store [Sample2.done_row "j1"]) = Val true w' /\
    find_row "j1" (rows w') = Some r' /\
    Row.state r' = "processing" /\
    Row.locked_by r' = Some "worker-100-0" /\
    Row.locked_at r' = Some "2024-01-01T00:00:00Z" /\
    (Row.id r', Row.command r', Row.attempts r', Row.max_retries r',
     Row.created_at r', Row.updated_at r', Row.error_message r',
     Row.next_retry_at r')
    = (Row.id (Sample2.done_row "j1"), Row.command (Sample2.done_row "j1"),
       Row.attempts (Sample2.done_row "j1"),
       Row.max_retries (Sample2.done_row "j1"),
       Row.created_at (Sample2.done_row "j1"),
       Row.updated_at (Sample2.done_row "j1"),
       Row.error_message (Sample2.done_row "j1"),
       Row.next_retry_at (Sample2.done_row "j1")).
Proof.
  apply (lock_job_ignores_state Sample.rt "j1" "worker-100-0"
           (Sample.store [Sample2.done_row "j1"]) (Sample2.done_row "j1")).
  - reflexivity.
  - reflexivity.
  - reflexivity.
Defined.

Lemma processing_not_candidate now r :
  Row.state r = value PROCESSING -> candidate now r = false.
Proof.
  intro H. unfold candidate, pending_candidate, retry_candidate.
  rewrite H. reflexivity.
Qed.

(** X10.  A job locked and then unlocked without an [update_job] in
    between (what the signal handler and the error path of the worker loop
    do) is left [processing] with no lease: its row is in neither query of
    [get_next_job], whatever the time of the poll. *)
Theorem lock_then_unlock_strands rt job_id worker w w1 :
  lock_job rt job_id worker w = Val true w1 ->
  exists w2 r,
    unlock_job job_id w1 = Val tt w2 /\
    find_row job_id (rows w2) = Some r /\
    Row.state r = value PROCESSING /\
    Row.locked_by r = None /\ Row.locked_at r = None /\
    forall now, candidate now r = false.
Proof.
  intro H.
  destruct (lock_job_true_inv _ _ _ _ _ H) as [_ [Hl1 [r [k [_ [_ G]]]]]].
  rewrite (unlock_job_ok job_id w1 Hl1).
  eexists _, _. split; [reflexivity|]. cbn [rows]. split.
  - apply sql_update_find; [reflexivity|exact G].
  - cbn [released leased Row.state Row.locked_by Row.locked_at].
    split; [reflexivity|]. split; [reflexivity|]. split; [reflexivity|].
    intro now. apply processing_not_candidate. reflexivity.
Qed.

Lemma lock_then_unlock_strands_witness :
  exists w2 r,
    unlock_job "j1" (World [leased "worker-100-0" "2024-01-01T00:00:00Z"
                                   (Sample.new_row "j1" "true" 3)] false 1 0)
    = Val tt w2 /\
    find_row "j1" (rows w2) = Some r /\
    Row.state r = value PROCESSING /\
    Row.locked_by r = None /\ Row.locked_at r = None /\
    forall now, candidate now r = false.
Proof.
  apply (lock_then_unlock_strands Sample.rt "j1" "worker-100-0"
           (Sample.store [Sample.new_row "j1" "true" 3])).
  reflexivity.
Defined.

(** ** Listings and statistics *)

Lemma row_to_job_keeps rt r w :
  after (_row_to_job rt r w)
        (fun w' => rows w' = rows w /\ lock_held w' = lock_held w).
Proof.
  unfold _row_to_job, Job_init, bind.
  destruct (truthy (Some (Row.id r))).
  - unfold ret at 1. destruct (JobState_of (Row.state r)); cbn; auto.
  - unfold uuid4. destruct (JobState_of (Row.state r)); cbn; auto.
Qed.

Lemma rows_to_jobs_keeps rt rs : forall w,
  after (rows_to_jobs rt rs w)
        (fun w' => rows w' = rows w /\ lock_held w' = lock_held w).
Proof.
  induction rs as [|r rs IH]; intro w; cbn [rows_to_jobs].
  - cbn. auto.
  - unfold bind at 1. pose proof (row_to_job_keeps rt r w) as H.
    destruct (_row_to_job rt r w) as [j w1|e w1|]; cbn in H |- *; auto.
    unfold bind at 1. pose proof (IH w1) as H1.
    destruct (rows_to_jobs rt rs w1) as [js w2|e w2|]; cbn in H1 |- *; auto.
    + destruct H as [Ha Hb], H1 as [Hc Hd]. split; congruence.
    + destruct H as [Ha Hb], H1 as [Hc Hd]. split; congruence.
Qed.

Lemma after_with_lock_rows {A} (m : M world A) w :
  (forall w0, after (m w0) (fun w' => rows w' = rows w0)) ->
  after (with_lock m w) (fun w' => rows w' = rows w).
Proof.
  intro H. unfold with_lock. destruct (lock_held w); [exact I|].
  specialize (H (set_lock true w)).
  destruct (m (set_lock true w)); cbn in *; auto.
Qed.

(** X11.  The reads of the store write nothing: after [get_job],
    [list_jobs] and [get_stats], however they end, the table is the one
    they found. *)
Theorem reads_do_not_write rt job_id state w :
  after (get_job rt job_id w) (fun w' => rows w' = rows w) /\
  after (list_jobs rt state w) (fun w' => rows w' = rows w) /\
  after (get_stats w) (fun w' => rows w' = rows w).
Proof.
  repeat split.
  - apply after_with_lock_rows. intro w0. unfold bind, table.
    destruct (find_row job_id (rows w0)) as [r|]; [|reflexivity].
    pose proof (row_to_job_keeps rt r w0) as H.
    destruct (_row_to_job rt r w0); cbn in *; tauto.
  - apply after_with_lock_rows. intro w0. unfold bind, table.
    pose proof (rows_to_jobs_keeps rt
                  (newest_first
                     (if truthy state
                      then filter (fun r => (Row.state r =? or_else state "")%string)
                                  (rows w0)
                      else rows w0)) w0) as H.
    destruct (rows_to_jobs rt _ w0); cbn in *; tauto.
  - apply after_with_lock_rows. intro w0. reflexivity.
Qed.

Lemma JobState_of_some text st : JobState_of text = Some st -> text = value st.
Proof.
  unfold JobState_of. intro H.
  repeat match type of H with
         | (if (?a =? ?b)%string then _ else _) = _ =>
             destruct (String.eqb_spec a b) as [->|_];
             [inversion H; reflexivity|]
         end.
  discriminate.
Qed.

Lemma rows_to_jobs_readable rt rs : forall w,
  Forall readable rs ->
  rows_to_jobs rt rs w =
  Val (map job_view rs)
      (World (rows w) (lock_held w) (List.length rs + ticks w) (draws w)).
Proof.
  induction rs as [|r rs IH]; intros w Hr; cbn [rows_to_jobs map List.length].
  - unfold ret. destruct w; reflexivity.
  - inversion Hr as [|? ? [Hi [Hc [Hu Hs]]] Hrest]; subst.
    destruct (JobState_of (Row.state r)) as [st|] eqn:E; [|congruence].
    unfold bind at 1. rewrite (row_to_job_ok rt r st) by assumption.
    unfold bind at 1. rewrite IH by exact Hrest.
    cbn [rows lock_held ticks draws]. unfold ret, job_view. rewrite E.
    cbn [get_or]. rewrite Nat.add_succ_r. reflexivity.
Qed.

Lemma insert_newest_first_perm r l : Permutation (insert_newest_first r l) (r :: l).
Proof.
  induction l as [|h t IH]; cbn; [reflexivity|].
  destruct (String.leb (Row.created_at h) (Row.created_at r)); [reflexivity|].
  rewrite IH. apply perm_swap.
Qed.

Lemma newest_first_perm rs : Permutation (newest_first rs) rs.
Proof.
  induction rs as [|r rs IH]; cbn; [reflexivity|].
  rewrite insert_newest_first_perm. constructor. exact IH.
Qed.

Lemma insert_newest_first_sorted r l :
  Sorted newer_or_equal l -> Sorted newer_or_equal (insert_newest_first r l).
Proof.
  induction l as [|h t IH]; intro Hs; cbn.
  - repeat constructor.
  - destruct (String.leb (Row.created_at h) (Row.created_at r)) eqn:E.
    + constructor; [exact Hs|]. constructor. exact E.
    + inversion Hs as [|? ? Ht Hh]; subst. constructor; [apply IH; exact Ht|].
      destruct t as [|h' t']; cbn.
      * constructor. unfold newer_or_equal.
        destruct (String.leb_total (Row.created_at r) (Row.created_at h));
          congruence.
      * destruct (String.leb (Row.created_at h') (Row.created_at r)).
        -- constructor. unfold newer_or_equal.
           destruct (String.leb_total (Row.created_at r) (Row.created_at h));
             congruence.
        -- inversion Hh; subst. constructor. assumption.
Qed.

Lemma newest_first_sorted rs : Sorted newer_or_equal (newest_first rs).
Proof.
  induction rs as [|r rs IH]; cbn; [constructor|].
  apply insert_newest_first_sorted. exact IH.
Qed.

Lemma job_view_sorted l :
  Sorted newer_or_equal l -> Sorted newer (map job_view l).
Proof.
  induction l as [|a l IH]; intro Hs; cbn [map]; [constructor|].
  inversion Hs as [|? ? Hl Hh]; subst. constructor; [apply IH; exact Hl|].
  destruct l as [|b l]; cbn [map]; [constructor|].
  inversion Hh; subst. constructor. assumption.
Qed.

Lemma list_jobs_readable rt state w :
  lock_held w = false ->
  Forall readable (rows w) ->
  list_jobs rt state w =
  Val (map job_view (newest_first (selected state (rows w))))
      (World (rows w) false
             (List.length (selected state (rows w)) + ticks w) (draws w)).
Proof.
  intros Hl Hr. unfold list_jobs, with_lock, bind, table. rewrite Hl.
  cbn [set_lock rows lock_held ticks draws].
  fold (selected state (rows w)).
  assert (Hs : Forall readable (newest_first (selected state (rows w)))).
  { apply Forall_forall. intros r Hin.
    apply (Permutation_in _ (newest_first_perm _)) in Hin.
    rewrite Forall_forall in Hr. apply Hr.
    unfold selected in Hin. destruct (truthy state); [|exact Hin].
    apply filter_In in Hin. apply Hin. }
  rewrite rows_to_jobs_readable by exact Hs.
  cbn [set_lock rows lock_held ticks draws].
  rewrite (Permutation_length (newest_first_perm _)). reflexivity.
Qed.

(** X12.  On a table of readable rows [list_jobs] returns, newest first
    by the text of [created_at], the jobs of the rows it selects, each
    once: all rows when the filter is [None] or empty, the rows in that
    state otherwise; every job listed under a filter is in that state. *)
Theorem list_jobs_lists_the_selection rt state w :
  lock_held w = false ->
  Forall readable (rows w) ->
  exists jobs w',
    list_jobs rt state w = Val jobs w' /\
    Permutation jobs (map job_view (selected state (rows w))) /\
    Sorted newer jobs /\
    (truthy state = false -> Permutation jobs (map job_view (rows w))) /\
    (truthy state = true ->
     forall job, In job jobs -> value (Job.state job) = or_else state "").
Proof.
  intros Hl Hr. rewrite list_jobs_readable by assumption.
  eexists _, _. split; [reflexivity|]. repeat split.
  - apply Permutation_map. apply newest_first_perm.
  - apply job_view_sorted. apply newest_first_sorted.
  - intro T. apply Permutation_map. unfold selected. rewrite T.
    apply newest_first_perm.
  - intros T job Hin. apply in_map_iff in Hin. destruct Hin as [r [<- Hin]].
    apply (Permutation_in _ (newest_first_perm _)) in Hin.
    unfold selected in Hin. rewrite T in Hin. apply filter_In in Hin.
    destruct Hin as [Hin E]. apply String.eqb_eq in E.
    rewrite Forall_forall in Hr. destruct (Hr r Hin) as [_ [_ [_ Hs]]].
    unfold job_view. destruct (JobState_of (Row.state r)) as [st|] eqn:S;
      [|congruence].
    cbn. rewrite <- E. symmetry. apply JobState_of_some. exact S.
Qed.

Lemma list_jobs_lists_the_selection_witness :
  exists jobs w',
    list_jobs Sample.rt (Some "pending")
      (Sample.store [Sample2.done_row "j0"; Sample.new_row "j1" "true" 3])
    = Val jobs w' /\
    Permutation jobs
      (map job_view
         (selected (Some "pending")
            (rows (Sample.store [Sample2.done_row "j0";
                                 Sample.new_row "j1" "true" 3])))) /\
    Sorted newer jobs /\
    (truthy (Some "pending") = false ->
     Permutation jobs
       (map job_view
          (rows (Sample.store [Sample2.done_row "j0";
                               Sample.new_row "j1" "true" 3])))) /\
    (truthy (Some "pending") = true ->
     forall job, In job jobs ->
                 value (Job.state job) = or_else (Some "pending") "").
Proof.
  apply (list_jobs_lists_the_selection Sample.rt (Some "pending")
           (Sample.store [Sample2.done_row "j0";
                          Sample.new_row "j1" "true" 3])).
  - reflexivity.
  - repeat constructor; discriminate.
Defined.

(** X13.  On a table of readable rows [get_dlq_jobs] returns exactly the
    dead jobs: every job it lists is [DEAD], and the id of every row in
    state [dead] is listed. *)
Theorem get_dlq_jobs_exactly_dead rt w :
  lock_held w = false ->
  Forall readable (rows w) ->
  exists jobs w',
    get_dlq_jobs rt w = Val jobs w' /\
    (forall job, In job jobs -> Job.state job = DEAD) /\
    (forall r, In r (rows w) -> Row.state r = value DEAD ->
               In (Row.id r) (map Job.id jobs)) /\
    (forall job, In job jobs -> In (Job.id job) (ids (rows w))).
Proof.
  intros Hl Hr. unfold get_dlq_jobs. rewrite list_jobs_readable by assumption.
  eexists _, _. split; [reflexivity|]. repeat split.
  - intros job Hin. apply in_map_iff in Hin. destruct Hin as [r [<- Hin]].
    apply (Permutation_in _ (newest_first_perm _)) in Hin.
    apply filter_In in Hin. destruct Hin as [_ E]. apply String.eqb_eq in E.
    unfold job_view. rewrite E. reflexivity.
  - intros r Hin E. apply in_map_iff. exists (job_view r). split; [reflexivity|].
    apply in_map. apply (Permutation_in _ (Permutation_sym (newest_first_perm _))).
    apply filter_In. split; [exact Hin|]. rewrite E. reflexivity.
  - intros job Hin. apply in_map_iff in Hin. destruct Hin as [r [<- Hin]].
    apply (Permutation_in _ (newest_first_perm _)) in Hin.
    apply filter_In in Hin. destruct Hin as [Hin _].
    unfold ids. apply in_map_iff. exists r. split; [reflexivity|exact Hin].
Qed.

Lemma get_dlq_jobs_exactly_dead_witness :
  exists jobs w',
    get_dlq_jobs Sample.rt
      (Sample.store [Sample.dead_row "j2"; Sample.new_row "j1" "true" 3])
    = Val jobs w' /\
    (forall job, In job jobs -> Job.state job = DEAD) /\
    (forall r,
       In r (rows (Sample.store [Sample.dead_row "j2";
                                 Sample.new_row "j1" "true" 3])) ->
       Row.state r = value DEAD -> In (Row.id r) (map Job.id jobs)) /\
    (forall job, In job jobs ->
       In (Job.id job)
          (ids (rows (Sample.store [Sample.dead_row "j2";
                                    Sample.new_row "j1" "true" 3])))).
Proof.
  apply (get_dlq_jobs_exactly_dead Sample.rt
           (Sample.store [Sample.dead_row "j2"; Sample.new_row "j1" "true" 3])).
  - reflexivity.
  - repeat constructor; discriminate.
Defined.











(** ** Building and enqueueing jobs *)

Lemma Job_init_ok rt id command state st attempts max_retries created_at
      updated_at error_message next_retry_at w :
  JobState_of state = Some st ->
  Job_init rt id command state attempts max_retries created_at updated_at
           error_message next_retry_at w =
  Val (Job.mk (new_id rt id w) command st attempts max_retries
              (or_else created_at (stamp rt (utc_clock rt (ticks w))))
              (or_else updated_at (stamp rt (utc_clock rt (ticks w))))
              error_message next_retry_at None None)
      (after_init id w).
Proof.
  intro Hs. unfold Job_init, bind, new_id, after_init.
  destruct (truthy id).
  - unfold ret at 1. rewrite Hs. reflexivity.
  - unfold uuid4. rewrite Hs. reflexivity.
Qed.

Lemma Job_init_bad_state rt id command state attempts max_retries created_at
      updated_at error_message next_retry_at w :
  JobState_of state = None ->
  exists w',
    Job_init rt id command state attempts max_retries created_at updated_at
             error_message next_retry_at w =
    Raise (Exn ValueError ("'" ++ state ++ "' is not a valid JobState")) w' /\
    rows w' = rows w /\ lock_held w' = lock_held w.
Proof.
  intro Hs. unfold Job_init, bind.
  destruct (truthy id).
  - unfold ret at 1. rewrite Hs. unfold raise. exists w. auto.
  - unfold uuid4. rewrite Hs. unfold raise. eexists. split; [reflexivity|].
    cbn. auto.
Qed.





Lemma add_job_ends job w :
  lock_held w = false ->
  (exists e, add_job job w = Raise e w) \/
  (add_job job w =
   Val job (World (rows w ++ [inserted job])%list false (ticks w) (draws w)) /\
   find_row (Job.id job) (rows w) = None /\
   storable (Job.attempts job) (Job.max_retries job)).
Proof.
  intro Hl. destruct w as [rs l t d]. cbn in Hl. subst l.
  unfold add_job, with_lock, bind.
  cbn [set_lock set_rows rows lock_held ticks draws].
  destruct (sqlite_int (Job.attempts job)) eqn:A;
    [|left; eexists; reflexivity].
  destruct (sqlite_int (Job.max_retries job)) eqn:B;
    [|left; eexists; reflexivity].
  cbn [andb negb].
  destruct (find_row (Job.id job) rs).
  - left. eexists. reflexivity.
  - right. repeat split; assumption.
Qed.

(** X18.  [enqueue] always ends with an exit status and the lock of the
    store free; with status 1 the table is unchanged, with status 0
    exactly one row was appended, for a job whose id the table did not
    have. *)
Theorem enqueue_adds_one_job_or_none rt loads configured job_data id command
        max_retries w :
  lock_held w = false ->
  exists code w',
    enqueue rt loads configured job_data id command max_retries w
    = Val code w' /\
    lock_held w' = false /\
    ((exit_code code = 1 /\ rows w' = rows w) \/
     (exit_code code = 0 /\
      exists job, find_row (Job.id job) (rows w) = None /\
                  rows w' = (rows w ++ [inserted job])%list)).
Proof.
  intro Hl. unfold enqueue, try_except.
  assert (Tail : forall id0 command0 state attempts retries c u e n,
    exists code w',
      match
        (job <- Job_init rt id0 command0 state attempts retries c u e n ;;
         add_job job ;;
         ret {| exit_code := 0;
                echo := "Job enqueued: " ++ Job.id job ++ nl
                        ++ "  Command: " ++ Job.command job ++ nl
                        ++ "  Max retries: " ++ str_int (Job.max_retries job) |})
          w
      with
      | Raise e0 s' =>
          if true
          then ret {| exit_code := 1; echo := "Error: " ++ msg e0 |} s'
          else Raise e0 s'
      | r => r
      end = Val code w' /\
      lock_held w' = false /\
      ((exit_code code = 1 /\ rows w' = rows w) \/
       (exit_code code = 0 /\
        exists job, find_row (Job.id job) (rows w) = None /\
                    rows w' = (rows w ++ [inserted job])%list))).
  { intros. unfold bind at 1.
    destruct (JobState_of state) as [st|] eqn:S.
    - rewrite (Job_init_ok rt id0 command0 state st) by exact S.
      unfold bind at 1.
      destruct (add_job_ends
                  (Job.mk (new_id rt id0 w) command0 st attempts retries
                     (or_else c (stamp rt (utc_clock rt (ticks w))))
                     (or_else u (stamp rt (utc_clock rt (ticks w)))) e n
                     None None) (after_init id0 w) Hl)
        as [[ex E]|[E [F _]]]; rewrite E.
      + unfold ret. eexists _, _. split; [reflexivity|]. cbn. auto.
      + unfold ret. eexists _, _. split; [reflexivity|]. cbn.
        split; [reflexivity|]. right. split; [reflexivity|].
        eexists. split; [exact F|reflexivity].
    - destruct (Job_init_bad_state rt id0 command0 state attempts retries
                  c u e n w S) as [w1 [E [R L]]].
      rewrite E. unfold ret. eexists _, _. split; [reflexivity|]. cbn.
      split; [congruence|]. left. auto. }
  destruct (truthy job_data).
  - destruct (loads (or_else job_data "")) as [text|data].
    + unfold ret. eexists _, _. split; [reflexivity|]. cbn. auto.
    + unfold from_dict. apply Tail.
  - destruct (negb (truthy command)).
    + unfold ret. eexists _, _. split; [reflexivity|]. cbn. auto.
    + apply Tail.
Qed.

Lemma enqueue_adds_one_job_or_none_witness :
  exists code w',
    enqueue Sample.rt (fun _ => inl "Expecting value") 3 None
            (Some "j2") (Some "echo hello") None
            (Sample.store [Sample.new_row "j1" "true" 3])
    = Val code w' /\
    lock_held w' = false /\
    ((exit_code code = 1 /\
      rows w' = rows (Sample.store [Sample.new_row "j1" "true" 3])) \/
     (exit_code code = 0 /\
      exists job,
        find_row (Job.id job)
                 (rows (Sample.store [Sample.new_row "j1" "true" 3])) = None /\
        rows w' =
          (rows (Sample.store [Sample.new_row "j1" "true" 3])
           ++ [inserted job])%list)).
Proof.
  apply (enqueue_adds_one_job_or_none Sample.rt
           (fun _ => inl "Expecting value") 3 None (Some "j2")
           (Some "echo hello") None
           (Sample.store [Sample.new_row "j1" "true" 3])).
  reflexivity.
Defined.

(** X19.  [--max-retries 0] is not honoured: [enqueue] with a command and
    a maximum of 0 stores the job with the configured maximum
    ([max_retries or config.get(...)]), pending and with no attempts. *)
Theorem enqueue_zero_max_retries rt loads configured id command w :
  lock_held w = false ->
  command <> "" ->
  find_row (new_id rt id w) (rows w) = None ->
  sqlite_int configured = true ->
  exists code w',
    enqueue rt loads configured None id (Some command) (Some 0) w
    = Val code w' /\
    exit_code code = 0 /\
    find_row (new_id rt id w) (rows w') =
    Some (Row.mk (new_id rt id w) command (value PENDING) 0 configured
                 (stamp rt (utc_clock rt (ticks w)))
                 (stamp rt (utc_clock rt (ticks w))) None None None None).
Proof.
  intros Hl Hc F Hm. unfold enqueue, try_except.
  cbn [truthy]. assert (nonempty command = true) as Hn
    by (destruct command; [congruence|reflexivity]).
  rewrite Hn. cbn [negb]. unfold bind at 1.
  rewrite (Job_init_ok rt id _ "pending" PENDING) by reflexivity.
  cbn [or_else]. rewrite Hn. cbn [retries_or Z.eqb].
  unfold bind at 1.
  destruct (add_job_ends
              (Job.mk (new_id rt id w) command PENDING 0 configured
                 (stamp rt (utc_clock rt (ticks w)))
                 (stamp rt (utc_clock rt (ticks w))) None None None None)
              (after_init id w) Hl) as [[e E]|[E _]].
  - exfalso. revert E. unfold add_job, with_lock, bind, after_init.
    cbn [set_lock rows lock_held ticks draws Job.attempts Job.max_retries
         Job.id]. rewrite Hl, Hm, F. cbn. discriminate.
  - rewrite E. unfold ret. eexists _, _. split; [reflexivity|].
    split; [reflexivity|]. cbn [rows after_init].
    apply find_row_app_new; [exact F|reflexivity].
Qed.

Lemma enqueue_zero_max_retries_witness :
  exists code w',
    enqueue Sample.rt (fun _ => inl "Expecting value") 3 None (Some "j2")
            (Some "echo hello") (Some 0)
            (Sample.store [Sample.new_row "j1" "true" 3])
    = Val code w' /\
    exit_code code = 0 /\
    find_row (new_id Sample.rt (Some "j2")
                     (Sample.store [Sample.new_row "j1" "true" 3]))
             (rows w') =
    Some (Row.mk (new_id Sample.rt (Some "j2")
                         (Sample.store [Sample.new_row "j1" "true" 3]))
                 "echo hello" (value PENDING) 0 3
                 (stamp Sample.rt
                    (utc_clock Sample.rt
                       (ticks (Sample.store [Sample.new_row "j1" "true" 3]))))
                 (stamp Sample.rt
                    (utc_clock Sample.rt
                       (ticks (Sample.store [Sample.new_row "j1" "true" 3]))))
                 None None None None).
Proof.
  apply (enqueue_zero_max_retries Sample.rt (fun _ => inl "Expecting value")
           3 (Some "j2") "echo hello"
           (Sample.store [Sample.new_row "j1" "true" 3])).
  - reflexivity.
  - discriminate.
  - reflexivity.
  - reflexivity.
Defined.

(** X20.  With JSON job data [enqueue] ignores its options and stores the
    state and the attempts the JSON gives: a job can be enqueued already
    completed, failed or dead, with any attempts counter. *)
Theorem enqueue_json_as_given rt loads configured text data st id command
        max_retries w :
  lock_held w = false ->
  text <> "" ->
  loads text = inr data ->
  k_state data = Some (value st) ->
  storable (get_or (k_attempts data) 0) (get_or (k_max_retries data) 3) ->
  find_row (new_id rt (k_id data) w) (rows w) = None ->
  exists code w' r,
    enqueue rt loads configured (Some text) id command max_retries w
    = Val code w' /\
    exit_code code = 0 /\
    find_row (new_id rt (k_id data) w) (rows w') = Some r /\
    Row.state r = value st /\
    Row.attempts r = get_or (k_attempts data) 0 /\
    Row.max_retries r = get_or (k_max_retries data) 3 /\
    Row.command r = get_or (k_command data) "".
Proof.
  intros Hl Ht L S [Ha Hm] F. unfold enqueue, try_except.
  cbn [truthy or_else]. assert (nonempty text = true) as Hn
    by (destruct text; [congruence|reflexivity]).
  rewrite Hn, L. unfold from_dict. rewrite S. cbn [get_or].
  unfold bind at 1.
  rewrite (Job_init_ok rt _ _ (value st) st) by apply JobState_of_value.
  unfold bind at 1.
  match goal with
  | |- context [add_job ?j ?w0] =>
      destruct (add_job_ends j w0 Hl) as [[e E]|[E _]]
  end.
  - exfalso. revert E. unfold add_job, with_lock, bind, after_init.
    cbn [set_lock rows lock_held ticks draws Job.attempts Job.max_retries
         Job.id]. rewrite Hl, Ha, Hm, F. cbn. discriminate.
  - rewrite E. unfold ret. eexists _, _, _. split; [reflexivity|].
    split; [reflexivity|]. cbn [rows after_init]. split.
    + apply find_row_app_new; [exact F|reflexivity].
    + cbn. repeat split; reflexivity.
Qed.

Lemma enqueue_json_as_given_witness :
  exists code w' r,
    enqueue Sample.rt
      (fun _ => inr {| k_id := Some "j7"; k_command := Some "true";
                       k_state := Some "dead"; k_attempts := Some 9;
                       k_max_retries := None; k_created_at := None;
                       k_updated_at := None; k_error_message := None;
                       k_next_retry_at := None |})
      3 (Some "{...}") (Some "ignored") (Some "ignored too") (Some 1)
      (Sample.store [])
    = Val code w' /\
    exit_code code = 0 /\
    find_row (new_id Sample.rt (Some "j7") (Sample.store [])) (rows w')
    = Some r /\
    Row.state r = value DEAD /\
    Row.attempts r = get_or (Some 9) 0 /\
    Row.max_retries r = get_or None 3 /\
    Row.command r = get_or (Some "true") "".
Proof.
  apply (enqueue_json_as_given Sample.rt
           (fun _ => inr {| k_id := Some "j7"; k_command := Some "true";
                            k_state := Some "dead"; k_attempts := Some 9;
                            k_max_retries := None; k_created_at := None;
                            k_updated_at := None; k_error_message := None;
                            k_next_retry_at := None |})
           3 "{...}"
           {| k_id := Some "j7"; k_command := Some "true";
              k_state := Some "dead"; k_attempts := Some 9;
              k_max_retries := None; k_created_at := None;
              k_updated_at := None; k_error_message := None;
              k_next_retry_at := None |}
           DEAD (Some "ignored") (Some "ignored too") (Some 1)
           (Sample.store [])).
  - reflexivity.
  - discriminate.
  - reflexivity.
  - reflexivity.
  - split; reflexivity.
  - reflexivity.
Defined.

(** * Further properties of the worker *)

Lemma steady_ret {A} (a : A) : steady (ret a).
Proof. intros w job s H. exact H. Qed.

Lemma steady_raise {A} e : steady (@raise pstate A e).
Proof. intros w job s H. exact H. Qed.

Lemma steady_bind {A B} (m : M pstate A) (k : A -> M pstate B) :
  steady m -> (forall a, steady (k a)) -> steady (bind m k).
Proof.
  intros Hm Hk w job s H. unfold bind. specialize (Hm w job s H).
  destruct (m s) as [a s'|e s'|]; [apply Hk| |]; assumption.
Qed.

Lemma steady_try_except {A} (m : M pstate A) handles handler :
  steady m -> (forall e, steady (handler e)) ->
  steady (try_except m handles handler).
Proof.
  intros Hm Hh w job s H. unfold try_except. specialize (Hm w job s H).
  destruct (m s) as [a s'|e s'|]; try assumption.
  destruct (handles e); [apply Hh|]; assumption.
Qed.

Lemma steady_utcnow rt : steady (on_store (utcnow rt)).
Proof. intros w job s H. exact H. Qed.

Lemma steady_the_job : steady the_job.
Proof. intros w job s H. exact H. Qed.

Lemma steady_update : steady storage_update_job.
Proof.
  intros w job [w0 j0] [Hl [Hi Ho]]. cbn [fst snd] in *.
  unfold storage_update_job, the_job, bind, on_store. cbn [fst snd].
  destruct (update_job_ends j0 w0 Hl) as [E|E]; rewrite E; cbn [fst snd].
  - repeat split; assumption.
  - repeat split; try assumption. cbn [fst snd rows]. intros other Hne.
    rewrite sql_update_other; [apply Ho; exact Hne|reflexivity|congruence].
Qed.

(** A method of the job that keeps its id. *)
Lemma steady_method rt (f : Z -> Job.t -> Job.t) :
  (forall now j, Job.id (f now j) = Job.id j) ->
  steady (now <- on_store (utcnow rt) ;; job <- the_job ;; assign (f now job)).
Proof.
  intros Hf w job [w0 j0] [Hl [Hi Ho]].
  unfold bind, on_store, utcnow, the_job, assign. cbn [fst snd] in *.
  unfold settled. cbn [fst snd rows lock_held].
  repeat split; try assumption. rewrite Hf. exact Hi.
Qed.

Lemma steady_set_next_retry_time rt base :
  steady (job_set_next_retry_time rt base).
Proof.
  intros w job [w0 j0] [Hl [Hi Ho]].
  unfold job_set_next_retry_time, bind, on_store, utcnow, the_job.
  cbn [fst snd] in *. unfold Job.set_next_retry_time.
  destruct (_ && _); cbn; repeat split; assumption.
Qed.

Lemma steady_record_failure rt base text : steady (record_failure rt base text).
Proof.
  unfold record_failure. apply steady_bind.
  - apply (steady_method rt (fun now j => Job.mark_failed rt now (Some text) j)).
    reflexivity.
  - intros _. apply steady_bind; [apply steady_the_job|]. intro j.
    destruct (Job.should_retry base j).
    + apply steady_bind; [apply steady_set_next_retry_time|].
      intros _. apply steady_update.
    + apply steady_bind; [|intros _; apply steady_update].
      apply (steady_method rt
               (fun now j0 => Job.mark_dead rt now (Some (exceeded j)) j0)).
      reflexivity.
Qed.

Lemma find_row_released job_id rs r :
  find_row job_id (fst (sql_update job_id released rs)) = Some r ->
  Row.locked_by r = None /\ Row.locked_at r = None.
Proof.
  destruct (find_row job_id rs) as [r0|] eqn:F.
  - rewrite (sql_update_find job_id released (fun _ => eq_refl) rs r0 F).
    intro H. inversion H. split; reflexivity.
  - rewrite sql_update_miss by exact F. cbn [fst]. congruence.
Qed.

(** X21.  Whatever the command does and whatever goes wrong while the
    outcome is recorded, [_process_job] ends (it returns or raises, it
    does not wait), leaves the lock of the store free and the row of the
    job without lease, and changes the row of no other job. *)
Theorem process_job_always_releases rt result base w job :
  lock_held w = false ->
  ends (_process_job rt result base (w, job)) /\
  after (_process_job rt result base (w, job))
        (fun s =>
           lock_held (fst s) = false /\
           (forall r, find_row (Job.id job) (rows (fst s)) = Some r ->
                      Row.locked_by r = None /\ Row.locked_at r = None) /\
           (forall other, other <> Job.id job ->
                          find_row other (rows (fst s))
                          = find_row other (rows w))).
Proof.
  intro Hl. unfold _process_job, try_finally.
  match goal with
  | |- context [try_except ?m ?h ?k] =>
      assert (St : steady (try_except m h k))
  end.
  { apply steady_try_except.
    - apply steady_bind.
      + destruct result; [apply steady_raise|apply steady_ret].
      + intro r. destruct (returncode r =? 0).
        * apply steady_bind; [|intros _; apply steady_update].
          apply (steady_method rt (fun now j => Job.mark_completed rt now j)).
          reflexivity.
        * apply steady_record_failure.
    - intro e. destruct (is_timeout e); apply steady_record_failure. }
  assert (S0 : settled w job (w, job)) by (repeat split; auto).
  specialize (St w job (w, job) S0).
  match goal with
  | |- context [try_except ?m ?h ?k (w, job)] =>
      destruct (try_except m h k (w, job)) as [a [w1 j1]|e [w1 j1]|]
  end; [| |contradiction];
    destruct St as [Hl1 [Hi1 Ho1]]; cbn [fst snd] in *;
    unfold bind, the_job, on_store; cbn [fst snd];
    rewrite (unlock_job_ok (Job.id j1) w1 Hl1); cbn [fst snd ends after rows
      lock_held]; rewrite Hi1;
    (split; [exact I|]); (split; [reflexivity|]); split;
    try (intros r Hr; eapply find_row_released; exact Hr);
    intros other Hne;
    (rewrite sql_update_other; [apply Ho1; exact Hne|reflexivity|exact Hne]).
Qed.

Lemma process_job_always_releases_witness :
  ends (_process_job Sample.rt (inl (Exn OtherException "No such file")) 2
          (Sample.store [Sample.failing_row "j2" 1 3 None],
           Sample.job_of (Sample.failing_row "j2" 1 3 None))) /\
  after (_process_job Sample.rt (inl (Exn OtherException "No such file")) 2
           (Sample.store [Sample.failing_row "j2" 1 3 None],
            Sample.job_of (Sample.failing_row "j2" 1 3 None)))
        (fun s =>
           lock_held (fst s) = false /\
           (forall r,
              find_row (Job.id (Sample.job_of
                                  (Sample.failing_row "j2" 1 3 None)))
                       (rows (fst s)) = Some r ->
              Row.locked_by r = None /\ Row.locked_at r = None) /\
           (forall other,
              other <> Job.id (Sample.job_of
                                 (Sample.failing_row "j2" 1 3 None)) ->
              find_row other (rows (fst s))
              = find_row other
                  (rows (Sample.store [Sample.failing_row "j2" 1 3 None])))).
Proof.
  apply (process_job_always_releases Sample.rt
           (inl (Exn OtherException "No such file")) 2
           (Sample.store [Sample.failing_row "j2" 1 3 None])
           (Sample.job_of (Sample.failing_row "j2" 1 3 None))).
  reflexivity.
Defined.

Lemma substring_length n m s : (String.length (substring n m s) <= m)%nat.
Proof.
  revert n m. induction s as [|c s IH]; intros n m.
  - destruct n, m; cbn; lia.
  - destruct n as [|n].
    + destruct m as [|m]; cbn; [lia|]. specialize (IH 0%nat m). lia.
    + cbn. apply IH.
Qed.

(** X22.  A failure of a job whose attempts counter is not negative and
    that leaves retries to spend is recorded as such: the row persisted
    is [failed] with the counter incremented by one; its error message is
    "Job execution timed out" when [subprocess.run] raised
    [TimeoutExpired], "Execution error: " followed by the text of the
    exception when it raised another one and, for a non-zero exit, the
    first 500 characters of stderr if stderr is not empty, else of stdout
    if stdout is not empty, else "Command failed"; its retry time is
    [reading + base ^ attempts] seconds with the incremented counter, as
    [isoformat() + "Z"]; it has no lease; from then on the row is a
    candidate of [get_next_job] exactly at the polls whose time text is
    not below that retry time. *)
Theorem failure_recorded_for_retry rt result base w job r :
  0 <= Job.attempts job ->
  is_failure result ->
  lock_held w = false ->
  find_row (Job.id job) (rows w) = Some r ->
  storable (Job.attempts job + 1) (Job.max_retries job) ->
  Job.attempts job + 1 < Job.max_retries job ->
  retry_time_ok (utc_clock rt (S (ticks w))) base (Job.attempts job + 1) ->
  exists w' job' r' text,
    _process_job rt result base (w, job) = Val tt (w', job') /\
    find_row (Job.id job) (rows w') = Some r' /\
    Row.state r' = "failed" /\
    Row.attempts r' = Job.attempts job + 1 /\
    Row.error_message r' = Some text /\
    match result with
    | inl e =>
        (cls e = TimeoutExpired -> text = "Job execution timed out") /\
        (cls e <> TimeoutExpired -> text = "Execution error: " ++ msg e)
    | inr cp =>
        (String.length text <= 500)%nat /\
        (stderr cp <> "" -> text = substring 0 500 (stderr cp)) /\
        (stderr cp = "" -> stdout cp <> "" ->
         text = substring 0 500 (stdout cp)) /\
        (stderr cp = "" -> stdout cp = "" -> text = "Command failed")
    end /\
    Row.next_retry_at r' =
      Some (isoformat rt (utc_clock rt (S (ticks w))
                          + base ^ (Job.attempts job + 1) * MICROS) ++ "Z") /\
    Row.locked_by r' = None /\ Row.locked_at r' = None /\
    forall now,
      candidate now r' =
      String.leb (isoformat rt (utc_clock rt (S (ticks w))
                                + base ^ (Job.attempts job + 1) * MICROS)
                  ++ "Z") now.
Proof.
  intros _ Hf Hl F Hs Hlt Hr.
  rewrite process_job_retry by assumption.
  eexists _, _, _, (failure_message result).
  split; [reflexivity|]. cbn [rows]. split.
  - apply sql_update_find; [reflexivity|].
    apply sql_update_find; [reflexivity|exact F].
  - cbn [released updated rescheduled Row.state Row.attempts
         Row.error_message Row.next_retry_at Row.locked_by Row.locked_at
         Job.state Job.attempts Job.error_message Job.next_retry_at].
    split; [reflexivity|]. split; [reflexivity|]. split; [reflexivity|].
    split.
    + destruct result as [e|cp]; cbn [failure_message].
      * unfold is_timeout. split.
        -- intros ->. reflexivity.
        -- intro Hne. destruct (cls e); try reflexivity. congruence.
      * split; [apply substring_length|]. unfold error_output.
        destruct (stderr cp) as [|c1 s1], (stdout cp) as [|c2 s2];
          cbn [nonempty]; repeat split; intros; try congruence;
          reflexivity.
    + split; [reflexivity|]. split; [reflexivity|]. split; [reflexivity|].
      intro now.
      unfold candidate, pending_candidate, retry_candidate, no_lease.
      cbn [released updated rescheduled Row.state Row.attempts
           Row.max_retries Row.next_retry_at Row.locked_by Row.locked_at
           Job.state Job.attempts Job.max_retries Job.next_retry_at
           is_null value].
      apply Z.ltb_lt in Hlt. rewrite Hlt.
      change (("failed" =? "pending")%string) with false.
      change (("failed" =? "failed")%string) with true.
      cbn [andb orb]. rewrite andb_true_r. reflexivity.
Qed.

Lemma failure_recorded_for_retry_witness :
  exists w' job' r' text,
    _process_job Sample.rt
      (inr {| returncode := 1; stdout := "out"; stderr := "boom" |}) 2
      (Sample.store [Sample.failing_row "j2" 0 3 None],
       Sample.job_of (Sample.failing_row "j2" 0 3 None))
    = Val tt (w', job') /\
    find_row "j2" (rows w') = Some r' /\
    Row.state r' = "failed" /\
    Row.attempts r' = 0 + 1 /\
    Row.error_message r' = Some text /\
    ((String.length text <= 500)%nat /\
     ("boom" <> "" -> text = substring 0 500 "boom") /\
     ("boom" = "" -> "out" <> "" -> text = substring 0 500 "out") /\
     ("boom" = "" -> "out" = "" -> text = "Command failed")) /\
    Row.next_retry_at r' = Some "2024-01-01T00:00:03Z" /\
    Row.locked_by r' = None /\ Row.locked_at r' = None /\
    forall now,
      candidate now r' = String.leb "2024-01-01T00:00:03Z" now.
Proof.
  apply (failure_recorded_for_retry Sample.rt
           (inr {| returncode := 1; stdout := "out"; stderr := "boom" |}) 2
           (Sample.store [Sample.failing_row "j2" 0 3 None])
           (Sample.job_of (Sample.failing_row "j2" 0 3 None))
           (Sample.failing_row "j2" 0 3 None)).
  - simpl. lia.
  - simpl. lia.
  - reflexivity.
  - reflexivity.
  - split; reflexivity.
  - simpl. lia.
  - unfold retry_time_ok. vm_compute. split; discriminate.
Defined.

Lemma record_failure_overflow rt base text w job :
  Job.attempts job + 1 < Job.max_retries job ->
  ~ retry_time_ok (utc_clock rt (S (ticks w))) base (Job.attempts job + 1) ->
  record_failure rt base text (w, job) =
  Raise (Exn OverflowError
             (overflow_text rt (utc_clock rt (S (ticks w)))
                            (base ^ (Job.attempts job + 1))))
        (World (rows w) (lock_held w) (S (S (ticks w))) (draws w),
         Job.mark_failed rt (utc_clock rt (ticks w)) (Some text) job).
Proof.
  intros Hlt Hr.
  unfold record_failure, job_mark_failed, job_set_next_retry_time,
    storage_update_job, the_job, assign, on_store, bind, utcnow.
  cbn [fst snd rows lock_held ticks draws].
  unfold Job.should_retry. cbn [Job.mark_failed Job.state Job.attempts
    Job.max_retries JobState_eqb].
  destruct (Job.max_retries job <=? Job.attempts job + 1) eqn:E;
    [apply Z.leb_le in E; lia|].
  cbn [fst snd rows lock_held ticks draws].
  unfold Job.set_next_retry_time, Job.calculate_retry_delay.
  cbn [Job.mark_failed Job.attempts].
  destruct ((0 <=? utc_clock rt (S (ticks w))
                   + base ^ (Job.attempts job + 1) * MICROS)
            && (utc_clock rt (S (ticks w))
                + base ^ (Job.attempts job + 1) * MICROS <=? DT_MAX)) eqn:C.
  - exfalso. apply Hr. apply andb_true_iff in C. destruct C as [C1 C2].
    apply Z.leb_le in C1, C2. split; assumption.
  - reflexivity.
Qed.

(** X23.  A failure whose retry time does not fit a [datetime] is not
    recorded.  When the command of a job whose attempts counter is not
    negative exits non-zero with at least two more failures to go and
    [now + backoff_base ** attempts] overflows at both tries,
    [set_next_retry_time] raises inside the [try], the [except Exception]
    clause counts the failure a second time and raises again, and
    [_process_job] ends with that [OverflowError]: the job object has its
    counter incremented twice, while in the table the row of the job only
    lost its lease ([locked_by] and [locked_at] are NULL) and keeps the
    state, the counter and the seven other columns it had; a table
    without such a row is unchanged, and no other row changes. *)
Theorem unschedulable_failure_not_recorded rt cp base w job :
  0 <= Job.attempts job ->
  returncode cp <> 0 ->
  lock_held w = false ->
  Job.attempts job + 2 < Job.max_retries job ->
  ~ retry_time_ok (utc_clock rt (S (ticks w))) base (Job.attempts job + 1) ->
  ~ retry_time_ok (utc_clock rt (S (S (S (ticks w))))) base
      (Job.attempts job + 2) ->
  exists e w' job',
    _process_job rt (inr cp) base (w, job) = Raise e (w', job') /\
    cls e = OverflowError /\
    (forall r, find_row (Job.id job) (rows w) = Some r ->
       exists r',
         find_row (Job.id job) (rows w') = Some r' /\
         Row.locked_by r' = None /\ Row.locked_at r' = None /\
         (Row.id r', Row.command r', Row.state r', Row.attempts r',
          Row.max_retries r', Row.created_at r', Row.updated_at r',
          Row.error_message r', Row.next_retry_at r')
         = (Row.id r, Row.command r, Row.state r, Row.attempts r,
            Row.max_retries r, Row.created_at r, Row.updated_at r,
            Row.error_message r, Row.next_retry_at r)) /\
    (find_row (Job.id job) (rows w) = None -> rows w' = rows w) /\
    (forall other, other <> Job.id job ->
                   find_row other (rows w') = find_row other (rows w)) /\
    lock_held w' = false /\
    Job.attempts job' = Job.attempts job + 2.
Proof.
  intros _ Hc Hl Hlt H1 H2.
  unfold _process_job, try_finally, try_except.
  unfold bind at 1. cbn [subprocess_run]. unfold ret at 1.
  apply Z.eqb_neq in Hc. rewrite Hc.
  rewrite record_failure_overflow by (assumption || lia).
  cbn [is_timeout cls msg].
  rewrite record_failure_overflow.
  - unfold bind, the_job, on_store. cbn [fst snd Job.mark_failed Job.id].
    rewrite unlock_job_ok by exact Hl.
    cbn [rows lock_held ticks draws].
    eexists _, _, _. split; [reflexivity|].
    cbn [rows lock_held cls Job.attempts Job.mark_failed].
    split; [reflexivity|]. split; [|split; [|split; [|split]]].
    + intros r F. exists (released r). split.
      * apply sql_update_find; [reflexivity|exact F].
      * repeat split; reflexivity.
    + intro F. rewrite sql_update_miss by exact F. reflexivity.
    + intros other Hne. apply sql_update_other; [reflexivity|exact Hne].
    + reflexivity.
    + lia.
  - cbn [Job.mark_failed Job.attempts Job.max_retries]. lia.
  - cbn [Job.mark_failed Job.attempts ticks].
    replace (Job.attempts job + 1 + 1) with (Job.attempts job + 2) by lia.
    exact H2.
Qed.

Lemma unschedulable_failure_not_recorded_witness :
  exists e w' job',
    _process_job Sample.rt
      (inr {| returncode := 1; stdout := ""; stderr := "" |}) 1000000000000
      (Sample.store [Sample.failing_row "j2" 0 5 None],
       Sample.job_of (Sample.failing_row "j2" 0 5 None))
    = Raise e (w', job') /\
    cls e = OverflowError /\
    (forall r,
       find_row "j2" (rows (Sample.store [Sample.failing_row "j2" 0 5 None]))
       = Some r ->
       exists r',
         find_row "j2" (rows w') = Some r' /\
         Row.locked_by r' = None /\ Row.locked_at r' = None /\
         (Row.id r', Row.command r', Row.state r', Row.attempts r',
          Row.max_retries r', Row.created_at r', Row.updated_at r',
          Row.error_message r', Row.next_retry_at r')
         = (Row.id r, Row.command r, Row.state r, Row.attempts r,
            Row.max_retries r, Row.created_at r, Row.updated_at r,
            Row.error_message r, Row.next_retry_at r)) /\
    (find_row "j2" (rows (Sample.store [Sample.failing_row "j2" 0 5 None]))
     = None ->
     rows w' = rows (Sample.store [Sample.failing_row "j2" 0 5 None])) /\
    (forall other, other <> "j2" ->
       find_row other (rows w') =
       find_row other (rows (Sample.store [Sample.failing_row "j2" 0 5 None]))) /\
    lock_held w' = false /\
    Job.attempts job' = 0 + 2.
Proof.
  apply (unschedulable_failure_not_recorded Sample.rt
           {| returncode := 1; stdout := ""; stderr := "" |} 1000000000000
           (Sample.store [Sample.failing_row "j2" 0 5 None])
           (Sample.job_of (Sample.failing_row "j2" 0 5 None))).
  - simpl. lia.
  - simpl. lia.
  - reflexivity.
  - simpl. lia.
  - unfold retry_time_ok. vm_compute. intros [_ H]. apply H. reflexivity.
  - unfold retry_time_ok. vm_compute. intros [_ H]. apply H. reflexivity.
Defined.

(** X24.  One turn of the loop of [Worker.run], started with no current
    job, never runs a command: either [get_next_job] finds no candidate
    and the turn ends with the table as it was, or it finds one and the
    turn never ends. *)
Theorem worker_turn_never_runs_a_job rt worker base result w :
  lock_held w = false ->
  run_iteration rt worker base result (w, None) = Blocks \/
  run_iteration rt worker base result (w, None) =
  Val tt (World (rows w) false (S (ticks w)) (draws w), None).
Proof.
  intro Hl. unfold run_iteration. cbn [fst snd].
  destruct (get_next_job_never_claims rt worker base w Hl) as [E|E];
    rewrite E; [left|right]; reflexivity.
Qed.

Lemma worker_turn_never_runs_a_job_witness :
  run_iteration Sample.rt "worker-100-0" 2 (Sample.exited 0)
                (Sample.store [Sample.new_row "j1" "true" 3], None) = Blocks \/
  run_iteration Sample.rt "worker-100-0" 2 (Sample.exited 0)
                (Sample.store [Sample.new_row "j1" "true" 3], None) =
  Val tt (World (rows (Sample.store [Sample.new_row "j1" "true" 3])) false
                (S (ticks (Sample.store [Sample.new_row "j1" "true" 3])))
                (draws (Sample.store [Sample.new_row "j1" "true" 3])), None).
Proof.
  apply (worker_turn_never_runs_a_job Sample.rt "worker-100-0" 2
           (Sample.exited 0) (Sample.store [Sample.new_row "j1" "true" 3])).
  reflexivity.
Defined.

(** * Further properties of the claim protocol and of [dlq retry] *)

(** X25.  The five-minute rule of [lock_job].  On a row with a holder and
    a [locked_at] that parses, [lock_job] returns [True] exactly when the
    lease is at least 300 seconds old at the reading of the clock,
    whoever asks, the holder included; refused, it changes no row;
    granted, the row then has the caller in [locked_by], the next reading
    of the clock (as [isoformat() + "Z"]) in [locked_at] and the state
    [processing], its eight other columns being as they were. *)
Theorem lock_job_five_minute_rule rt job_id worker w r text d :
  lock_held w = false ->
  find_row job_id (rows w) = Some r ->
  truthy (Row.locked_by r) = true ->
  Row.locked_at r = Some text ->
  text <> "" ->
  fromisoformat rt (utc_offset text) = Some d ->
  exists b w',
    lock_job rt job_id worker w = Val b w' /\
    (b = true <-> LEASE_TIMEOUT <= utc_clock rt (ticks w) - naive d) /\
    (b = false -> rows w' = rows w) /\
    (b = true ->
     exists r',
       find_row job_id (rows w') = Some r' /\
       Row.locked_by r' = Some worker /\
       Row.locked_at r' =
         Some (isoformat rt (utc_clock rt (S (ticks w))) ++ "Z") /\
       Row.state r' = "processing" /\
       (Row.id r', Row.command r', Row.attempts r', Row.max_retries r',
        Row.created_at r', Row.updated_at r', Row.error_message r',
        Row.next_retry_at r')
       = (Row.id r, Row.command r, Row.attempts r, Row.max_retries r,
          Row.created_at r, Row.updated_at r, Row.error_message r,
          Row.next_retry_at r)).
Proof.
  intros Hl F Hb Ha Hne Hp.
  destruct (Z.lt_ge_cases (utc_clock rt (ticks w) - naive d) LEASE_TIMEOUT)
    as [Hage|Hage].
  - rewrite (lock_job_fresh_lease_refused rt job_id worker w r text d)
      by assumption.
    eexists _, _. split; [reflexivity|]. split; [|split].
    + split; intro; [discriminate|lia].
    + reflexivity.
    + discriminate.
  - destruct (lock_job_grants_after rt job_id worker w r (S (ticks w)) Hl F)
      as [w' [E [_ [_ G]]]].
    + unfold lock_job_check, bind, table.
      cbn [set_lock rows lock_held ticks draws]. rewrite F, Hb, Ha.
      destruct text as [|c text]; [congruence|]. cbn [nonempty]. rewrite Hp.
      unfold utcnow, ret, set_lock. cbn [rows lock_held ticks draws].
      apply Z.ltb_ge in Hage. rewrite Hage. reflexivity.
    + exists true, w'. split; [exact E|]. split; [|split].
      * split; intro; [exact Hage|reflexivity].
      * discriminate.
      * intros _.
        exists (leased worker (stamp rt (utc_clock rt (S (ticks w)))) r).
        split; [exact G|]. repeat split; reflexivity.
Qed.

Lemma lock_job_five_minute_rule_witness :
  exists b w',
    lock_job (Sample.rt_at 300) "j1" "worker-200-0"
      (Sample.store [Sample.held_row "j1" "worker-100-0" "2024-01-01T00:00:00Z"])
    = Val b w' /\
    (b = true <->
     LEASE_TIMEOUT <=
     utc_clock (Sample.rt_at 300)
       (ticks (Sample.store [Sample.held_row "j1" "worker-100-0"
                                             "2024-01-01T00:00:00Z"]))
     - naive {| naive := Sample.T0; tzinfo := Some 0 |}) /\
    (b = false ->
     rows w' = rows (Sample.store [Sample.held_row "j1" "worker-100-0"
                                                   "2024-01-01T00:00:00Z"])) /\
    (b = true ->
     exists r',
       find_row "j1" (rows w') = Some r' /\
       Row.locked_by r' = Some "worker-200-0" /\
       Row.locked_at r' = Some "2024-01-01T00:05:01Z" /\
       Row.state r' = "processing" /\
       (Row.id r', Row.command r', Row.attempts r', Row.max_retries r',
        Row.created_at r', Row.updated_at r', Row.error_message r',
        Row.next_retry_at r')
       = ("j1", "true", 0, 3, "2024-01-01T00:00:00Z", "2024-01-01T00:00:00Z",
          None, None)).
Proof.
  apply (lock_job_five_minute_rule (Sample.rt_at 300) "j1" "worker-200-0"
           (Sample.store [Sample.held_row "j1" "worker-100-0"
                                          "2024-01-01T00:00:00Z"])
           (Sample.held_row "j1" "worker-100-0" "2024-01-01T00:00:00Z")
           "2024-01-01T00:00:00Z").
  - reflexivity.
  - reflexivity.
  - reflexivity.
  - reflexivity.
  - discriminate.
  - vm_compute. reflexivity.
Defined.

Lemma lock_in_turn_refused_bounded rt job_id workers : forall w r holder t d,
  lock_held w = false ->
  find_row job_id (rows w) = Some r ->
  Row.locked_by r = Some holder -> holder <> "" ->
  Row.locked_at r = Some (stamp rt t) ->
  fromisoformat rt (isoformat rt t ++ "+00:00") = Some d ->
  (forall k, (ticks w <= k < ticks w + List.length workers)%nat ->
             utc_clock rt k - naive d < LEASE_TIMEOUT) ->
  lock_in_turn rt job_id workers w =
  Val (repeat false (List.length workers))
      (World (rows w) false (List.length workers + ticks w) (draws w)).
Proof.
  induction workers as [|a rest IH]; intros w r holder t d Hl F Hb Hne Ha Hp Hc.
  - cbn. unfold ret. destruct w; cbn in *. subst. reflexivity.
  - cbn [lock_in_turn]. unfold bind at 1.
    rewrite (lock_job_fresh_lease_refused rt job_id a w r (stamp rt t) d);
      try assumption.
    + unfold bind at 1.
      rewrite (IH _ r holder t d); cbn [rows lock_held ticks draws];
        try assumption; try reflexivity.
      * unfold ret. cbn [List.length repeat]. rewrite Nat.add_succ_r. reflexivity.
      * intros k Hk. apply Hc. cbn [List.length]. lia.
    + rewrite Hb. destruct holder; [congruence|reflexivity].
    + apply stamp_nonempty.
    + rewrite utc_offset_stamp. exact Hp.
    + apply Hc. cbn [List.length]. lia.
Qed.

(** X26.  Within one process, where [_lock] serialises the calls, the
    lease excludes: after a [lock_job] that returned [True] for a named
    worker, every [lock_job] on the same job that follows while the clock
    stays within 300 seconds of the lease returns [False] and leaves the
    table as it is. *)
Theorem lock_job_excludes_later_calls rt job_id worker others w w1 d k :
  lock_job rt job_id worker w = Val true w1 ->
  worker <> "" ->
  ticks w1 = S k ->
  fromisoformat rt (isoformat rt (utc_clock rt k) ++ "+00:00") = Some d ->
  (forall n, (ticks w1 <= n < ticks w1 + List.length others)%nat ->
             utc_clock rt n - naive d < LEASE_TIMEOUT) ->
  exists w2,
    lock_in_turn rt job_id others w1 =
    Val (repeat false (List.length others)) w2 /\ rows w2 = rows w1.
Proof.
  intros H Hne Hk Hp Hc.
  destruct (lock_job_true_inv _ _ _ _ _ H) as [_ [Hl1 [r [k' [F [T G]]]]]].
  assert (k' = k) as -> by congruence.
  eexists. split.
  - eapply lock_in_turn_refused_bounded
      with (holder := worker) (t := utc_clock rt k);
      try eassumption; reflexivity.
  - reflexivity.
Qed.

Lemma lock_job_excludes_later_calls_witness :
  exists w2,
    lock_in_turn Sample.rt "j1" ["worker-200-0"; "worker-300-0"]
      (World [leased "worker-100-0" "2024-01-01T00:00:00Z"
                     (Sample.new_row "j1" "true" 3)] false 1 0) =
    Val (repeat false (List.length ["worker-200-0"; "worker-300-0"])) w2 /\
    rows w2 =
    rows (World [leased "worker-100-0" "2024-01-01T00:00:00Z"
                        (Sample.new_row "j1" "true" 3)] false 1 0).
Proof.
  apply (lock_job_excludes_later_calls Sample.rt "j1" "worker-100-0"
           ["worker-200-0"; "worker-300-0"]
           (Sample.store [Sample.new_row "j1" "true" 3])
           (World [leased "worker-100-0" "2024-01-01T00:00:00Z"
                          (Sample.new_row "j1" "true" 3)] false 1 0)
           {| naive := Sample.T0; tzinfo := Some 0 |} 0%nat).
  - reflexivity.
  - discriminate.
  - reflexivity.
  - vm_compute. reflexivity.
  - intros n Hn. cbn in Hn.
    assert (n = 1 \/ n = 2)%nat as [->| ->] by lia; vm_compute; reflexivity.
Defined.

(** X27.  The contract of [dlq retry] on a table of readable rows with
    64-bit counters.  Without a job of that id: exit 1, "not found",
    nothing changed.  With a job that is not dead: exit 1, "not in Dead
    Letter Queue", no row changed.  With a dead job: exit 0, and the row
    becomes pending with no attempts, no error message and no retry time,
    keeps its command, [max_retries], [created_at] and whatever lease it
    carried; no other row changes. *)
Theorem dlq_retry_contract rt job_id w :
  lock_held w = false ->
  job_id <> "" ->
  Forall readable (rows w) ->
  (forall r, In r (rows w) -> sqlite_int (Row.max_retries r) = true) ->
  match find_row job_id (rows w) with
  | None =>
      retry rt job_id w =
      Val {| exit_code := 1; echo := "Error: Job " ++ job_id ++ " not found" |}
          w
  | Some r =>
      if (Row.state r =? value DEAD)%string then
        exists w',
          retry rt job_id w =
          Val {| exit_code := 0;
                 echo := "Job " ++ job_id ++ " moved back to pending queue" |}
              w' /\
          find_row job_id (rows w') =
            Some (revived rt (utc_clock rt (S (ticks w))) r) /\
          forall other, other <> job_id ->
                        find_row other (rows w') = find_row other (rows w)
      else
        exists w',
          retry rt job_id w =
          Val {| exit_code := 1;
                 echo := "Error: Job " ++ job_id
                         ++ " is not in Dead Letter Queue" |} w' /\
          rows w' = rows w
  end.
Proof.
  intros Hl Hi Hr Hm.
  destruct (find_row job_id (rows w)) as [r|] eqn:F;
    [|apply retry_not_found; assumption].
  assert (Hin : In r (rows w)) by (apply find_some in F; apply F).
  rewrite Forall_forall in Hr. destruct (Hr r Hin) as [_ [Hc [Hu Hs]]].
  pose proof (find_row_id _ _ _ F) as Hid.
  destruct (String.eqb_spec (Row.state r) (value DEAD)) as [E|E].
  - unfold retry, get_job, try_except, with_lock, table, bind.
    rewrite Hl. cbn [set_lock rows lock_held ticks draws]. rewrite F.
    rewrite (row_to_job_ok rt r DEAD); try assumption;
      [|congruence|rewrite E; reflexivity].
    unfold ret, utcnow.
    cbn [set_lock rows lock_held ticks draws Job.state JobState_eqb negb].
    rewrite update_job_ok; [|reflexivity|split; [reflexivity|apply Hm; exact Hin]].
    cbn [rows lock_held ticks draws Job.id].
    eexists. split; [reflexivity|]. cbn [rows]. rewrite Hid. split.
    + rewrite sql_update_find with (r := r); [|reflexivity|exact F].
      reflexivity.
    + intros other Hne. apply sql_update_other; [reflexivity|exact Hne].
  - destruct (JobState_of (Row.state r)) as [st|] eqn:S; [|congruence].
    eexists. split.
    + apply (retry_not_in_dlq rt job_id w r st); try assumption.
      intros ->. apply JobState_of_some in S. congruence.
    + reflexivity.
Qed.

Lemma dlq_retry_contract_witness :
  match find_row "j2"
          (rows (Sample.store [Sample.dead_row "j2";
                               Sample.new_row "j1" "true" 3])) with
  | None =>
      retry Sample.rt "j2"
            (Sample.store [Sample.dead_row "j2"; Sample.new_row "j1" "true" 3])
      = Val {| exit_code := 1; echo := "Error: Job " ++ "j2" ++ " not found" |}
            (Sample.store [Sample.dead_row "j2"; Sample.new_row "j1" "true" 3])
  | Some r =>
      if (Row.state r =? value DEAD)%string then
        exists w',
          retry Sample.rt "j2"
                (Sample.store [Sample.dead_row "j2";
                               Sample.new_row "j1" "true" 3]) =
          Val {| exit_code := 0;
                 echo := "Job " ++ "j2" ++ " moved back to pending queue" |}
              w' /\
          find_row "j2" (rows w') =
            Some (revived Sample.rt
                    (utc_clock Sample.rt
                       (S (ticks (Sample.store [Sample.dead_row "j2";
                                                Sample.new_row "j1" "true" 3]))))
                    r) /\
          forall other, other <> "j2" ->
            find_row other (rows w') =
            find_row other
              (rows (Sample.store [Sample.dead_row "j2";
                                   Sample.new_row "j1" "true" 3]))
      else
        exists w',
          retry Sample.rt "j2"
                (Sample.store [Sample.dead_row "j2";
                               Sample.new_row "j1" "true" 3]) =
          Val {| exit_code := 1;
                 echo := "Error: Job " ++ "j2"
                         ++ " is not in Dead Letter Queue" |} w' /\
          rows w' =
          rows (Sample.store [Sample.dead_row "j2";
                              Sample.new_row "j1" "true" 3])
  end.
Proof.
  apply (dlq_retry_contract Sample.rt "j2"
           (Sample.store [Sample.dead_row "j2"; Sample.new_row "j1" "true" 3])).
  - reflexivity.
  - discriminate.
  - repeat constructor; discriminate.
  - intros r [<-|[<-|[]]]; reflexivity.
Defined.
